(** * Receipt validation and purchase-status reconciliation (lib/google.js)

    A shallow embedding of [lib/google.js] and the properties of its
    trust-anchor setup, receipt validation and status reconciliation.

    JavaScript values are an inductive type; objects are association lists
    in property-enumeration order (JSON.stringify depends on that order);
    the module-level variables of the file are a record that is passed
    explicitly; objects shared with the caller live in a heap; callbacks
    are continuations; calls that leave the module (the crypto primitive,
    JSON.parse, the two HTTP endpoints) are nodes of a finite interaction
    tree answered by an environment. *)

From Stdlib Require Import ZArith String Ascii List Lia DecimalString.
From stdpp Require Import gmap strings list fin_maps.
Import ListNotations.
Local Open Scope string_scope.
Local Open Scope Z_scope.
Set Warnings "-register-all".

(** ** JavaScript values *)

Module JS.

(** Numbers are the integer-valued ones (printed in decimal, as JavaScript
    does below 10^21); a character of a [string] is one code unit below
    256.  [JErr m] is [new Error(m)].  Property lists are in enumeration
    order and the program only writes names that are not array indices, so
    a new property goes last. *)
Inductive jsval : Type :=
| JUndefined
| JNull
| JBool (b : bool)
| JNum (n : Z)
| JStr (s : string)
| JArr (elems : list jsval)
| JObj (props : list (string * jsval))
| JErr (message : string).

(** Uncaught exceptions the program can raise by itself. *)
Inductive exn : Type := TypeError | SyntaxError.

Definition truthy (v : jsval) : bool :=
  match v with
  | JUndefined | JNull => false
  | JBool b => b
  | JNum n => negb (n =? 0)
  | JStr s => negb (String.eqb s "")
  | JArr _ | JObj _ | JErr _ => true
  end.

Definition typeof (v : jsval) : string :=
  match v with
  | JUndefined => "undefined"
  | JNull | JArr _ | JObj _ | JErr _ => "object"
  | JBool _ => "boolean"
  | JNum _ => "number"
  | JStr _ => "string"
  end.

Definition is_object_type (v : jsval) : bool := String.eqb (typeof v) "object".

Definition decimal (n : Z) : string := NilZero.string_of_int (Z.to_int n).

Fixpoint join (sep : string) (l : list string) : string :=
  match l with
  | [] => ""
  | [s] => s
  | s :: r => s ++ sep ++ join sep r
  end.

(** The abstract operation ToString, as [String(v)] and string
    concatenation use it (objects have the default [toString]). *)
Fixpoint to_string (v : jsval) : string :=
  match v with
  | JUndefined => "undefined"
  | JNull => "null"
  | JBool true => "true"
  | JBool false => "false"
  | JNum n => decimal n
  | JStr s => s
  | JArr l =>
      join "," (List.map (fun x => match x with
                                   | JUndefined | JNull => ""
                                   | _ => to_string x
                                   end) l)
  | JObj _ => "[object Object]"
  | JErr m => if String.eqb m "" then "Error" else "Error: " ++ m
  end.

(** [new Error(v)]: the message is ToString of the argument, and is left to
    the prototype's empty string when the argument is undefined. *)
Definition new_Error (v : jsval) : jsval :=
  match v with
  | JUndefined => JErr ""
  | _ => JErr (to_string v)
  end.

Fixpoint assoc_get (k : string) (ps : list (string * jsval)) : option jsval :=
  match ps with
  | [] => None
  | (k', x) :: r => if String.eqb k k' then Some x else assoc_get k r
  end.

Fixpoint assoc_set (k : string) (x : jsval) (ps : list (string * jsval))
  : list (string * jsval) :=
  match ps with
  | [] => [(k, x)]
  | (k', y) :: r =>
      if String.eqb k k' then (k, x) :: r else (k', y) :: assoc_set k x r
  end.

(** [v.k] for a property name [k]; [None] is the TypeError of reading a
    property of null or undefined.  Only named properties are read by the
    program: index properties of strings and arrays are not modelled. *)
Definition get_prop (v : jsval) (k : string) : option jsval :=
  match v with
  | JUndefined | JNull => None
  | JObj ps => Some (default JUndefined (assoc_get k ps))
  | JErr m => Some (if String.eqb k "message" then JStr m else JUndefined)
  | JStr s => Some (if String.eqb k "length"
                    then JNum (Z.of_nat (String.length s)) else JUndefined)
  | JArr l => Some (if String.eqb k "length"
                    then JNum (Z.of_nat (List.length l)) else JUndefined)
  | JBool _ | JNum _ => Some JUndefined
  end.

(** [k in v] for a name [k] that no prototype defines (the program tests
    ['error']); [None] is the TypeError raised when [v] is not an object. *)
Definition js_in (k : string) (v : jsval) : option bool :=
  match v with
  | JObj ps => Some (bool_decide (is_Some (assoc_get k ps)))
  | JArr _ => Some (String.eqb k "length")
  | JErr _ => Some (String.eqb k "message")
  | _ => None
  end.

(** [v.k = x] in sloppy mode (the file has no 'use strict'): a TypeError on
    null and undefined, silently ignored on the other primitives.  Extra
    named properties of arrays and Error objects are not represented; the
    program never reads one back. *)
Definition set_prop (v : jsval) (k : string) (x : jsval) : option jsval :=
  match v with
  | JUndefined | JNull => None
  | JObj ps => Some (JObj (assoc_set k x ps))
  | _ => Some v
  end.

(** *** JSON.stringify *)

Definition hex_digit (n : N) : ascii :=
  ascii_of_N (if (n <? 10)%N then 48 + n else 87 + n)%N.

Definition dquote : string := String (ascii_of_N 34) "".

(** One code unit inside a JSON string literal. *)
Definition quote_char (c : ascii) : string :=
  let n := N_of_ascii c in
  if (n =? 34)%N then "\" ++ dquote
  else if (n =? 92)%N then "\\"
  else if (n =? 8)%N then "\b"
  else if (n =? 9)%N then "\t"
  else if (n =? 10)%N then "\n"
  else if (n =? 12)%N then "\f"
  else if (n =? 13)%N then "\r"
  else if (n <? 32)%N
       then "\u00" ++ String (hex_digit (n / 16)) (String (hex_digit (n mod 16)) "")
  else String c "".

Fixpoint quote_body (s : string) : string :=
  match s with
  | EmptyString => ""
  | String c r => quote_char c ++ quote_body r
  end.

Definition quote (s : string) : string := dquote ++ quote_body s ++ dquote.

(** [JSON.stringify(v)]; [None] is the result [undefined].  A property whose
    value is undefined is left out of an object and printed as [null] in an
    array; an Error object has no enumerable property. *)
Fixpoint JSON_stringify (v : jsval) : option string :=
  match v with
  | JUndefined => None
  | JNull => Some "null"
  | JBool true => Some "true"
  | JBool false => Some "false"
  | JNum n => Some (decimal n)
  | JStr s => Some (quote s)
  | JArr l =>
      Some ("[" ++ join "," (List.map (fun x => default "null" (JSON_stringify x)) l)
                ++ "]")
  | JObj ps =>
      Some ("{" ++ join ","
                  (List.flat_map
                     (fun p => match JSON_stringify (snd p) with
                               | Some s => [quote (fst p) ++ ":" ++ s]
                               | None => []
                               end) ps)
                ++ "}")
  | JErr _ => Some "{}"
  end.

(** [s.replace(/\//g, '\\/')]: every slash gets a backslash in front. *)
Fixpoint escape_slashes (s : string) : string :=
  match s with
  | EmptyString => ""
  | String c r =>
      if Ascii.eqb c "/"%char then String "\"%char (String "/"%char (escape_slashes r))
      else String c (escape_slashes r)
  end.

(** *** Trailing-run removal: [s.replace(/X+$/, '')] *)

Fixpoint string_rev_onto (s acc : string) : string :=
  match s with
  | EmptyString => acc
  | String c r => string_rev_onto r (String c acc)
  end.

Fixpoint drop_while (p : ascii -> bool) (s : string) : string :=
  match s with
  | EmptyString => ""
  | String c r => if p c then drop_while p r else s
  end.

(** The first match of [X+$] is the maximal run of [X] that ends the string. *)
Definition strip_trailing (p : ascii -> bool) (s : string) : string :=
  string_rev_onto (drop_while p (string_rev_onto s "")) "".

(** The class [\s] on code units below 256: tab, line feed, vertical tab,
    form feed, carriage return, space and no-break space. *)
Definition is_whitespace (c : ascii) : bool :=
  let n := N_of_ascii c in
  ((9 <=? n) && (n <=? 13) || (n =? 32) || (n =? 160))%N.

Definition is_letter_s (c : ascii) : bool := Ascii.eqb c "s"%char.

End JS.

Import JS.

(** ** lib/constants.js *)

Module Constants.

Inductive validation : Type := SUCCESS | FAILURE.

(** Modelled from the spec: lib/constants.js is not among the sources; the
    result contract of section 6 writes the two status values as
    ['SUCCESS'] and ['FAILURE'], and the scenario of section 8 writes the
    service tag as ['GOOGLE']. *)
Definition VALIDATION (v : validation) : jsval :=
  match v with
  | SUCCESS => JStr "SUCCESS"
  | FAILURE => JStr "FAILURE"
  end.

(** Modelled from the spec: [constants.SERVICES.GOOGLE], see [VALIDATION]. *)
Definition SERVICES_GOOGLE : jsval := JStr "GOOGLE".

End Constants.

(** ** lib/async.js *)

Module Async.

Section Sequencing.
(** [S] is what the steps share and mutate, [R] is what a run yields. *)
Context {S R : Type}.

(** Modelled from the spec: lib/async.js is not among the sources.
    Section 4.4 has the reconciler driven by a fixed sequence of steps
    that run strictly one after the other, where a step that reports an
    error ends the sequence with that error; the value a step passes
    after the error position is not handed to the next step. *)
Fixpoint series (tasks : list (S -> (S -> jsval -> jsval -> R) -> R))
    (done : S -> jsval -> R) (s : S) : R :=
  match tasks with
  | [] => done s JUndefined
  | task :: rest =>
      task s (fun s' err _ =>
                if truthy err then done s' err else series rest done s')
  end.

(** Modelled from the spec: lib/async.js is not among the sources.
    Section 5 has trust-anchor loading sequential per key file: the
    iterator runs on each item in order, and the final callback runs
    after the last one or at the first error. *)
Fixpoint eachSeries {A : Type} (items : list A)
    (iterator : A -> S -> (S -> jsval -> R) -> R)
    (cb : S -> jsval -> R) (s : S) : R :=
  match items with
  | [] => cb s JUndefined
  | item :: rest =>
      iterator item s (fun s' err =>
                         if truthy err then cb s' err else eachSeries rest iterator cb s')
  end.
End Sequencing.

End Async.

(** ** lib/google.js *)

Module Google.

Import Constants.

Definition sandboxPkey : string := "iap-sandbox".
Definition livePkey : string := "iap-live".

Module KEYS.
Definition ACCESS_TOKEN : string := "access_token".
Definition GRANT_TYPE : string := "grant_type".
Definition CLIENT_ID : string := "client_id".
Definition CLIENT_SECRET : string := "client_secret".
Definition REFRESH_TOKEN : string := "refresh_token".
End KEYS.

Module ENV_PUBLICKEY.
Definition SANDBOX : string := "GOOGLE_IAB_PUBLICKEY_SANDBOX".
Definition LIVE : string := "GOOGLE_IAB_PUBLICKEY_LIVE".
End ENV_PUBLICKEY.

(** The shape of [googleTokenMap]; a field that was never assigned is
    undefined. *)
Module Credentials.
Record tokens : Type := {
  accessToken : jsval;
  refreshToken : jsval;
  clientID : jsval;
  clientSecret : jsval
}.
End Credentials.
Abbreviation tokens := Credentials.tokens.

(** The module-level variables.  Configuration values, key paths and key
    material are strings; [keyPathMap] keeps its insertion order because
    [setup] walks [Object.keys(keyPathMap)]. *)
Record module_state : Type := {
  config : option (gmap string string);
  keyPathMap : list (string * string);
  publicKeyMap : gmap string string;
  googleTokenMap : tokens;
  checkPurchaseState : bool
}.

Definition no_tokens : tokens :=
  {| Credentials.accessToken := JUndefined; Credentials.refreshToken := JUndefined;
     Credentials.clientID := JUndefined; Credentials.clientSecret := JUndefined |}.

(** The values the variables are declared with (and that [reset] restores). *)
Definition reset : module_state :=
  {| config := None; keyPathMap := []; publicKeyMap := ∅;
     googleTokenMap := no_tokens; checkPurchaseState := false |}.

(** A string-valued slot read in boolean position: present and non-empty. *)
Definition present (o : option string) : bool :=
  match o with
  | Some s => negb (String.eqb s "")
  | None => false
  end.

Definition str_or_undefined (o : option string) : jsval :=
  match o with
  | Some s => JStr s
  | None => JUndefined
  end.

Definition isValidConfigKey (key : string) : bool := String.prefix "google" key.

(** [keyPathMap[k] = p]: an existing key keeps its place, a new one goes last. *)
Fixpoint set_keyPath (k p : string) (m : list (string * string))
  : list (string * string) :=
  match m with
  | [] => [(k, p)]
  | (k', q) :: r =>
      if String.eqb k k' then (k, p) :: r else (k', q) :: set_keyPath k p r
  end.

(** [configIn] is [None] when the argument is missing; its values are
    strings.  The call to [verbose.setup] only concerns logging. *)
Definition readConfig (configIn : option (gmap string string)) (m : module_state)
  : module_state :=
  match configIn with
  | None => m
  | Some cin =>
      let copied : gmap string string :=
        filter (fun kv => isValidConfigKey (fst kv) = true) cin in
      let configValueSet := negb (bool_decide (copied = ∅)) in
      let c1 := if present (cin !! "publicKeyStrSandbox")
                then <["googlePublicKeyStrSandbox" := default "" (cin !! "publicKeyStrSandbox")]> copied
                else copied in
      let c2 := if present (cin !! "publicKeyStrLive")
                then <["googlePublicKeyStrLive" := default "" (cin !! "publicKeyStrLive")]> c1
                else c1 in
      if negb configValueSet then
        {| config := None; keyPathMap := keyPathMap m;
           publicKeyMap := publicKeyMap m; googleTokenMap := googleTokenMap m;
           checkPurchaseState := checkPurchaseState m |}
      else
        let path := to_string (str_or_undefined (c2 !! "googlePublicKeyPath")) in
        let kpm := set_keyPath "live" (path ++ livePkey)
                     (set_keyPath "sandbox" (path ++ sandboxPkey) (keyPathMap m)) in
        let full := present (c2 !! "googleAccToken") && present (c2 !! "googleRefToken")
                    && present (c2 !! "googleClientID")
                    && present (c2 !! "googleClientSecret") in
        {| config := Some c2; keyPathMap := kpm; publicKeyMap := publicKeyMap m;
           googleTokenMap :=
             if full then
               {| Credentials.accessToken := str_or_undefined (c2 !! "googleAccToken");
                  Credentials.refreshToken := str_or_undefined (c2 !! "googleRefToken");
                  Credentials.clientID := str_or_undefined (c2 !! "googleClientID");
                  Credentials.clientSecret := str_or_undefined (c2 !! "googleClientSecret") |}
             else googleTokenMap m;
           checkPurchaseState := if full then true else checkPurchaseState m |}
  end.

Fixpoint keyPath_get (k : string) (m : list (string * string)) : option string :=
  match m with
  | [] => None
  | (k', q) :: r => if String.eqb k k' then Some q else keyPath_get k r
  end.

(** *** setup *)

(** What [setup] reads from outside the module: [process.env] and the
    files that [fs.readFile] can read (a path that is absent yields the
    error argument). *)
Record host : Type := {
  process_env : gmap string string;
  files : gmap string string
}.

Definition set_publicKey (k v : string) (m : module_state) : module_state :=
  {| config := config m; keyPathMap := keyPathMap m;
     publicKeyMap := <[k := v]> (publicKeyMap m);
     googleTokenMap := googleTokenMap m;
     checkPurchaseState := checkPurchaseState m |}.

Definition config_get (m : module_state) (k : string) : option string :=
  match config m with
  | Some c => c !! k
  | None => None
  end.

Section Setup.
Context {R : Type}.
Variable h : host.

Definition setup (m : module_state) (cb : module_state -> R) : R :=
  if present (config_get m "googlePublicKeyStrSandbox")
     || present (config_get m "googlePublicKeyStrLive")
  then
    (* try to read public key value as string *)
    let m1 := if present (config_get m "googlePublicKeyStrSandbox")
              then set_publicKey "sandbox"
                     (default "" (config_get m "googlePublicKeyStrSandbox")) m
              else m in
    let m2 := if present (config_get m1 "googlePublicKeyStrLive")
              then set_publicKey "live"
                     (default "" (config_get m1 "googlePublicKeyStrLive")) m1
              else m1 in
    cb m2
  else if negb (bool_decide (is_Some (config m)))
          || negb (present (config_get m "googlePublicKeyPath"))
  then
    (* try to read public key value from ENV if available *)
    let m1 := if present (process_env h !! ENV_PUBLICKEY.SANDBOX)
              then set_publicKey "sandbox"
                     (strip_trailing is_letter_s
                        (default "" (process_env h !! ENV_PUBLICKEY.SANDBOX))) m
              else m in
    let m2 := if present (process_env h !! ENV_PUBLICKEY.LIVE)
              then set_publicKey "live"
                     (strip_trailing is_letter_s
                        (default "" (process_env h !! ENV_PUBLICKEY.LIVE))) m1
              else m1 in
    cb m2
  else
    let keys := List.map fst (keyPathMap m) in
    Async.eachSeries keys
      (fun key m' next =>
         (* a key of keyPathMap always has a path *)
         let pkeyPath := default "" (keyPath_get key (keyPathMap m')) in
         match files h !! pkeyPath with
         | None =>
             (* we are ignoring missing public key file(s) *)
             next m' JUndefined
         | Some fileData =>
             next (set_publicKey key (strip_trailing is_whitespace fileData) m')
                  JUndefined
         end)
      (fun m' _ => cb m') m.
End Setup.

(** *** Calls that leave the module *)

Definition loc : Type := positive.

(** The module-level variables together with the objects the caller shares
    with the module: an argument that is an object is passed as its
    location, and a write through the argument is a write to the heap. *)
Record world : Type := {
  vars : module_state;
  heap : gmap loc jsval
}.

Definition deref (w : world) (l : loc) : jsval := default JUndefined (heap w !! l).

Definition store (l : loc) (v : jsval) (w : world) : world :=
  {| vars := vars w; heap := <[l := v]> (heap w) |}.

Definition set_accessToken (v : jsval) (w : world) : world :=
  {| vars :=
       {| config := config (vars w); keyPathMap := keyPathMap (vars w);
          publicKeyMap := publicKeyMap (vars w);
          googleTokenMap :=
            {| Credentials.accessToken := v;
               Credentials.refreshToken := Credentials.refreshToken (googleTokenMap (vars w));
               Credentials.clientID := Credentials.clientID (googleTokenMap (vars w));
               Credentials.clientSecret := Credentials.clientSecret (googleTokenMap (vars w)) |};
          checkPurchaseState := checkPurchaseState (vars w) |};
     heap := heap w |}.

(** [validater.verify(pkey, signature, 'base64')]: a boolean, or the
    exception (an Error with a message) that the [try] block catches. *)
Inductive verify_result : Type :=
| VTrue
| VFalse
| VThrow (message : string).

(** How a call of an exported function ends: the callback is invoked with
    the pair (error, result); an exception escapes; or the call returns
    with the callback never invoked. *)
Inductive outcome : Type :=
| Called (w : world) (error result : jsval)
| Threw (w : world) (x : exn)
| Stalled (w : world).

(** A run of the module up to its next call to the outside.  The
    continuation of [Lookup] and of [Refresh] is the callback handed to
    [request]: it receives the error and the body (the response object is
    not read by the module). *)
Inductive prog : Type :=
| Done (o : outcome)
| Verify (pkey data : string) (signature : jsval) (k : verify_result -> prog)
| Parse (text : string) (k : option jsval -> prog)
| Lookup (url authorization : string) (k : jsval -> jsval -> prog)
| Refresh (form : jsval) (k : jsval -> jsval -> prog).

Definition callback : Type := world -> jsval -> jsval -> prog.

(** The caller's callback: the call ends with the pair it received. *)
Definition report : callback := fun w error result => Done (Called w error result).

(** An operation that raises a TypeError when it has no result. *)
Definition or_throw {A : Type} (w : world) (o : option A) (k : A -> prog) : prog :=
  match o with
  | Some a => k a
  | None => Done (Threw w TypeError)
  end.

Notation "'let!' x ':=' o 'in' w ';' k" := (or_throw w o (fun x => k))
  (at level 10, x name, o at level 100, w at level 0, k at level 200).

Definition nl : string := String (ascii_of_N 10) "".
Definition cr : string := String (ascii_of_N 13) "".

Definition failure_envelope (message : jsval) : jsval :=
  JObj [("status", VALIDATION FAILURE); ("message", message)].

(** *** getPublicKey, chunkSplit *)

(** The characters that [.] does not match, among code units below 256. *)
Definition is_line_terminator (c : ascii) : bool :=
  let n := N_of_ascii c in ((n =? 10) || (n =? 13))%N.

(** [str.match(/.{0,len}/g)] for [len >= 1]: greedy runs of at most [len]
    characters other than line terminators; an empty match at each line
    terminator and at the end of the string, after which the search moves
    one character on.  [cur] is the run being collected, of length [n]. *)
Fixpoint match_chunks (len : nat) (s cur : string) (n : nat) : list string :=
  match s with
  | EmptyString => if (n =? 0)%nat then [""] else [cur; ""]
  | String c r =>
      if is_line_terminator c
      then (if (n =? 0)%nat then [] else [cur]) ++ "" :: match_chunks len r "" 0
      else if (n <? len)%nat then match_chunks len r (cur ++ String c "") (S n)
      else cur :: match_chunks len r (String c "") 1
  end.

Definition chunkSplit (str : string) (len : Z) (end_ : string) : jsval :=
  let len := if len =? 0 then 76 else len in
  if len <? 1 then JBool false
  else
    let end_ := if String.eqb end_ "" then cr ++ nl else end_ in
    JStr (join end_ (match_chunks (Z.to_nat len) str "" 0)).

(** [None] is the result [null]. *)
Definition getPublicKey (publicKey : option string) : option string :=
  match publicKey with
  | Some k =>
      if String.eqb k "" then None
      else
        let key := chunkSplit k 64 nl in
        Some ("-----BEGIN PUBLIC KEY-----" ++ nl ++ to_string key
              ++ "-----END PUBLIC KEY-----" ++ nl)
  | None => None
  end.

(** *** validatePublicKey *)

Definition validatePublicKey (receipt : loc) (pkey : option string)
    (w : world) (cb : callback) : prog :=
  let r := deref w receipt in
  if negb (truthy r) then cb w (new_Error (JStr "missing receipt data")) JUndefined
  else
    let! data := get_prop r "data" in w;
    if negb (truthy data) then cb w (new_Error (JStr "missing receipt data")) JUndefined
    else
      match pkey with
      | None => cb w (new_Error (JStr "missing public key")) JUndefined
      | Some pem =>
          match data with
          | JStr text =>
              let! signature := get_prop r "signature" in w;
              Verify pem text signature (fun valid =>
                match valid with
                | VThrow message => cb w (JErr message) JUndefined
                | VTrue =>
                    (* validated successfully *)
                    Parse text (fun parsed =>
                      match parsed with
                      | None => Done (Threw w SyntaxError)
                      | Some data =>
                          let! data := set_prop data "status" (VALIDATION SUCCESS) in w;
                          cb w JNull data
                      end)
                | VFalse =>
                    (* failed to validate *)
                    cb w (new_Error (JStr "failed to validate purchase")) JUndefined
                end)
          | _ => cb w (new_Error (JStr "receipt.data must be a string")) JUndefined
          end
      end.

(** *** getPurchaseInfo, refreshGoogleTokens *)

Definition getPurchaseInfo (url : string) (w : world)
    (cb : jsval -> jsval -> prog) : prog :=
  Lookup url ("Bearer " ++ to_string (Credentials.accessToken (googleTokenMap (vars w)))) cb.

Definition refreshGoogleTokens (w : world) (cb : jsval -> jsval -> prog) : prog :=
  let t := googleTokenMap (vars w) in
  let body :=
    JObj [(KEYS.GRANT_TYPE, JStr KEYS.REFRESH_TOKEN);
          (KEYS.CLIENT_ID, Credentials.clientID t);
          (KEYS.CLIENT_SECRET, Credentials.clientSecret t);
          (KEYS.REFRESH_TOKEN, Credentials.refreshToken t)] in
  Refresh body cb.

(** *** checkPurchaseStatus *)

(** What the three steps share: the module variables, the local variable
    [state] ([None] while it is undefined) and the payload object [data]. *)
Record closure : Type := {
  cw : world;
  state : option validation;
  data : jsval
}.

Definition with_state (s : validation) (c : closure) : closure :=
  {| cw := cw c; state := Some s; data := data c |}.

Definition with_data (d : jsval) (c : closure) : closure :=
  {| cw := cw c; state := state c; data := d |}.

Definition with_world (w : world) (c : closure) : closure :=
  {| cw := w; state := state c; data := data c |}.

Definition step : Type := closure -> (closure -> jsval -> jsval -> prog) -> prog.

Definition is_state (s : validation) (c : closure) : bool :=
  match state c, s with
  | Some SUCCESS, SUCCESS | Some FAILURE, FAILURE => true
  | _, _ => false
  end.

(** [a && b] on values, with [b] already read. *)
Definition js_and (a b : jsval) : jsval := if truthy a then b else a.

(** [a || b] on values. *)
Definition js_or (a b : jsval) : jsval := if truthy a then a else b.

Definition purchase_url (packageName purchaseType productId purchaseToken : string)
  : string :=
  "https://www.googleapis.com/androidpublisher/v2/applications/" ++ packageName
  ++ "/purchases/" ++ purchaseType ++ "/" ++ productId ++ "/tokens/" ++ purchaseToken.

(** The copy of the subscription fields from a response body into [data]. *)
Definition copy_subscription (isSubscription body : jsval) (c : closure)
    (k : closure -> prog) : prog :=
  if truthy isSubscription then
    let! autoRenewing := get_prop body "autoRenewing" in (cw c);
    let! d1 := set_prop (data c) "autoRenewing" autoRenewing in (cw c);
    let! expiryTimeMillis := get_prop body "expiryTimeMillis" in (cw c);
    let! d2 := set_prop d1 "expirationTime" expiryTimeMillis in (cw c);
    k (with_data d2 c)
  else k c.

Section Reconciliation.
Variables (isSubscription : jsval) (url : string) (cb : callback).

Definition getSubInfo : step := fun c next =>
  getPurchaseInfo url (cw c) (fun error body =>
    if truthy error then
      (* we must move on to validate() *)
      next (with_state FAILURE c) JUndefined JUndefined
    else
      let! has_error := js_in "error" body in (cw c);
      if has_error : bool then next (with_state FAILURE c) JUndefined JUndefined
      else
        copy_subscription isSubscription body c (fun c =>
          next (with_state SUCCESS c) JUndefined JUndefined)).

Definition validate : step := fun c next =>
  match state c with
  | Some SUCCESS =>
      (* "No, don't call that function again" *)
      next c JNull (VALIDATION FAILURE)
  | Some FAILURE =>
      refreshGoogleTokens (cw c) (fun error body =>
        if truthy error then
          let! message := get_prop error "message" in (cw c);
          cb (cw c) error (failure_envelope message)
        else
          Parse (to_string body) (fun parsed =>
            match parsed with
            | None => Done (Threw (cw c) SyntaxError)
            | Some parsedBody =>
                let! has_error := js_in "error" parsedBody in (cw c);
                if has_error : bool then
                  let! body_error := get_prop parsedBody "error" in (cw c);
                  let! message := get_prop body_error "message" in (cw c);
                  let bodyErrorMsg := js_or message body_error in
                  cb (cw c) (new_Error bodyErrorMsg) (failure_envelope bodyErrorMsg)
                else
                  let! token := get_prop parsedBody KEYS.ACCESS_TOKEN in (cw c);
                  (* Store new access token *)
                  let c := with_world (set_accessToken token (cw c)) c in
                  (* here we are telling the next function to get
                     subscription Info again *)
                  next (with_state SUCCESS c) JUndefined JUndefined
            end))
  | None => Done (Stalled (cw c))
  end.

Definition recheck : step := fun c next =>
  if is_state SUCCESS c then
    getPurchaseInfo url (cw c) (fun error body =>
      let! failed :=
        (if truthy error then Some true else js_in "error" body) in (cw c);
      if failed : bool then
        let! body_error := get_prop body "error" in (cw c);
        let! message := get_prop body_error "message" in (cw c);
        let bodyErrorMsg := js_or message body_error in
        next (with_state FAILURE c)
             (if truthy error then error else new_Error bodyErrorMsg) JUndefined
      else
        copy_subscription isSubscription body c (fun c =>
          next (with_state SUCCESS c) JUndefined JUndefined))
  else
    (* refresh failed *)
    next (with_state FAILURE c) JUndefined JUndefined.

Definition done : closure -> jsval -> prog := fun c error =>
  if truthy error then
    let! message := get_prop error "message" in (cw c);
    cb (cw c) error (failure_envelope message)
  else cb (cw c) JNull (data c).

Definition tasks : list step := [getSubInfo; validate; recheck].
End Reconciliation.

Definition checkPurchaseStatus (data : jsval) (options : jsval)
    (w : world) (cb : callback) : prog :=
  let! data := set_prop data "service" SERVICES_GOOGLE in w;
  if negb (checkPurchaseState (vars w)) then cb w JNull data
  else
    let! subscription :=
      (if truthy options then get_prop options "subscription" else Some JUndefined) in w;
    let isSubscription := js_and options subscription in
    let! packageName := get_prop data "packageName" in w;
    let! productId := get_prop data "productId" in w;
    let! purchaseToken := get_prop data "purchaseToken" in w;
    let purchaseType := if truthy isSubscription then "subscriptions" else "products" in
    let url := purchase_url (to_string packageName) purchaseType
                 (to_string productId) (to_string purchaseToken) in
    Async.series (tasks isSubscription url cb) (done cb)
      {| cw := w; state := None; data := data |}.

(** *** validatePurchase *)

(** [JSON.stringify(data).replace(/\//g, '\\/')]; [None] is the TypeError of
    calling [replace] on undefined. *)
Definition canonical_data (d : jsval) : option string :=
  option_map escape_slashes (JSON_stringify d).

(** Lines 140-144: an object-typed [receipt.data] is replaced, in the
    caller's object, by its canonical string. *)
Definition canonicalize_receipt (receipt : loc) (data : jsval) (w : world)
  : option world :=
  if String.eqb (typeof data) "object" then
    (* stringify and make sure to escape the value of developerPayload *)
    match canonical_data data with
    | Some text =>
        option_map (fun r' => store receipt r' w)
                   (set_prop (deref w receipt) "data" (JStr text))
    | None => None
    end
  else Some w.

Definition validatePurchase (dPubkey : option string) (receipt : loc)
    (options : jsval) (w : world) (cb : callback) : prog :=
  let r := deref w receipt in
  if negb (String.eqb (typeof r) "object") then
    cb w (new_Error (JStr ("malformed receipt: " ++ to_string r)))
       (failure_envelope (JStr "Malformed receipt"))
  else
    let! data := get_prop r "data" in w;
    let! signature := get_prop r "signature" in w;
    if negb (truthy data) || negb (truthy signature) then
      cb w (new_Error (JStr ("missing receipt data:" ++ nl
                             ++ to_string (str_or_undefined (JSON_stringify r)))))
         (failure_envelope (JStr "Malformed receipt"))
    else
      let! w := canonicalize_receipt receipt data w in w;
      let pubkey := publicKeyMap (vars w) !! "live" in
      (* override pubkey to allow dynamically fed public key to validate *)
      let pubkey := if present dPubkey then dPubkey else pubkey in
      (* try live first *)
      validatePublicKey receipt (getPublicKey pubkey) w (fun w error data =>
        if truthy error then
          if negb (present (publicKeyMap (vars w) !! "sandbox")) then
            let! message := get_prop error "message" in w;
            cb w error (failure_envelope message)
          else
            let pubkey := publicKeyMap (vars w) !! "sandbox" in
            (* now try sandbox *)
            validatePublicKey receipt (getPublicKey pubkey) w (fun w error2 data =>
              if truthy error2 then
                (* we will send the error from live only *)
                let! message := get_prop error "message" in w;
                cb w error (failure_envelope message)
              else
                (* sandbox worked *)
                checkPurchaseStatus data options w cb)
        else
          (* live worked *)
          checkPurchaseStatus data options w cb).

(** *** refreshToken *)

Definition refreshToken (w : world) (cb : callback) : prog :=
  if negb (checkPurchaseState (vars w)) then
    cb w (new_Error (JStr "missing google play api info"))
       (failure_envelope
          (JStr "client_id, client_secret, access_token and refres_token should be provided"))
  else
    refreshGoogleTokens w (fun error body =>
      if truthy error then
        let! message := get_prop error "message" in w;
        cb w error (failure_envelope message)
      else
        Parse (to_string body) (fun parsed =>
          match parsed with
          | None => Done (Threw w SyntaxError)
          | Some parsedBody =>
              let! has_error := js_in "error" parsedBody in w;
              if has_error : bool then
                let! body_error := get_prop parsedBody "error" in w;
                cb w (new_Error body_error) (failure_envelope body_error)
              else
                let! token := get_prop parsedBody KEYS.ACCESS_TOKEN in w;
                (* Store new access token *)
                cb (set_accessToken token w) JNull parsedBody
          end)).

(** *** Running against an environment *)

(** One completed call to the outside, with the answer it got. *)
Inductive event : Type :=
| EvVerify (pkey data : string) (signature : jsval) (r : verify_result)
| EvParse (text : string) (r : option jsval)
| EvLookup (url authorization : string) (error body : jsval)
| EvRefresh (form error body : jsval).

(** The crypto primitive and JSON.parse are functions of their arguments;
    the two remote endpoints may answer by anything, depending on the
    request and on everything that happened before it. *)
Record environment : Type := {
  crypto_verify : string -> string -> jsval -> verify_result;
  JSON_parse : string -> option jsval;
  purchases_endpoint : list event -> string -> string -> jsval * jsval;
  token_endpoint : list event -> jsval -> jsval * jsval
}.

(** [run e p past]: the events of [past] followed by those of [p], in
    order, and how [p] ends. *)
Fixpoint run (e : environment) (p : prog) (past : list event)
  : list event * outcome :=
  match p with
  | Done o => (past, o)
  | Verify pkey data signature k =>
      let r := crypto_verify e pkey data signature in
      run e (k r) (past ++ [EvVerify pkey data signature r])
  | Parse text k =>
      let r := JSON_parse e text in
      run e (k r) (past ++ [EvParse text r])
  | Lookup url authorization k =>
      let r := purchases_endpoint e past url authorization in
      run e (k (fst r) (snd r)) (past ++ [EvLookup url authorization (fst r) (snd r)])
  | Refresh form k =>
      let r := token_endpoint e past form in
      run e (k (fst r) (snd r)) (past ++ [EvRefresh form (fst r) (snd r)])
  end.

Definition is_lookup (ev : event) : bool :=
  match ev with EvLookup _ _ _ _ => true | _ => false end.

Definition is_refresh (ev : event) : bool :=
  match ev with EvRefresh _ _ _ => true | _ => false end.

Definition is_verify (ev : event) : bool :=
  match ev with EvVerify _ _ _ _ => true | _ => false end.

Definition count (p : event -> bool) (tr : list event) : nat :=
  List.length (List.filter p tr).

(** The keys that the crypto primitive was given, in order. *)
Definition keys_consulted (tr : list event) : list string :=
  List.flat_map (fun ev => match ev with
                           | EvVerify pkey _ _ _ => [pkey]
                           | _ => []
                           end) tr.

(** An exception that escapes from a callback of [request]: the run has
    been to a remote endpoint and ends with [Threw]. *)
Definition throws_in_request_callback (res : list event * outcome) : bool :=
  match snd res with
  | Threw _ _ => negb (Nat.eqb (count is_lookup (fst res) + count is_refresh (fst res)) 0)
  | _ => false
  end.

Definition final_world (o : outcome) : world :=
  match o with
  | Called w _ _ | Threw w _ | Stalled w => w
  end.

(** [along Q a b p]: on every path through [p], whatever the answers from
    outside, the run ends in an outcome [o] with [Q a' b' o], where [a'] is
    [a] plus the number of lookups on the path and [b'] is [b] plus the
    number of credential refreshes on it. *)
Inductive along (Q : nat -> nat -> outcome -> Prop) : nat -> nat -> prog -> Prop :=
| along_Done a b o :
    Q a b o -> along Q a b (Done o)
| along_Verify a b pkey data signature k :
    (forall r, along Q a b (k r)) -> along Q a b (Verify pkey data signature k)
| along_Parse a b text k :
    (forall r, along Q a b (k r)) -> along Q a b (Parse text k)
| along_Lookup a b url authorization k :
    (forall error body, along Q (S a) b (k error body)) ->
    along Q a b (Lookup url authorization k)
| along_Refresh a b form k :
    (forall error body, along Q a (S b) (k error body)) ->
    along Q a b (Refresh form k).

(** [verifies_nothing p]: no path through [p] calls the crypto primitive. *)
Inductive verifies_nothing : prog -> Prop :=
| vn_Done o : verifies_nothing (Done o)
| vn_Parse text k :
    (forall r, verifies_nothing (k r)) -> verifies_nothing (Parse text k)
| vn_Lookup url authorization k :
    (forall error body, verifies_nothing (k error body)) ->
    verifies_nothing (Lookup url authorization k)
| vn_Refresh form k :
    (forall error body, verifies_nothing (k error body)) ->
    verifies_nothing (Refresh form k).

(** *** getPurchaseData *)

(** [None] would be a TypeError; the result [JNull] is the [null] returned
    for a missing purchase.  [expirationTime] is read only when
    [checkPurchaseState] is true. *)
Definition getPurchaseData (m : module_state) (purchase : jsval) : option jsval :=
  if negb (truthy purchase) then Some JNull
  else
    purchaseToken ← get_prop purchase "purchaseToken";
    orderId ← get_prop purchase "orderId";
    productId ← get_prop purchase "productId";
    purchaseTime ← get_prop purchase "purchaseTime";
    let purchaseInfo :=
      JObj [("transactionId", purchaseToken);
            ("orderId", orderId);
            ("productId", productId);
            ("purchaseDate", purchaseTime);
            ("quantity", JNum 1)] in
    purchaseInfo ←
      (if checkPurchaseState m then
         expirationTime ← get_prop purchase "expirationTime";
         if truthy expirationTime
         then set_prop purchaseInfo "expirationDate" expirationTime
         else Some purchaseInfo
       else Some purchaseInfo);
    Some (JArr [purchaseInfo]).

(** [ensures Q tr p]: when the events so far are [tr], every path through
    [p], whatever the answers from outside, ends in an outcome [o] with
    [Q tr' o], where [tr'] is [tr] followed by the events of the path. *)
Inductive ensures (Q : list event -> outcome -> Prop) : list event -> prog -> Prop :=
| ensures_Done tr o :
    Q tr o -> ensures Q tr (Done o)
| ensures_Verify tr pkey data signature k :
    (forall r, ensures Q (tr ++ [EvVerify pkey data signature r]) (k r)) ->
    ensures Q tr (Verify pkey data signature k)
| ensures_Parse tr text k :
    (forall r, ensures Q (tr ++ [EvParse text r]) (k r)) ->
    ensures Q tr (Parse text k)
| ensures_Lookup tr url authorization k :
    (forall error body,
        ensures Q (tr ++ [EvLookup url authorization error body]) (k error body)) ->
    ensures Q tr (Lookup url authorization k)
| ensures_Refresh tr form k :
    (forall error body, ensures Q (tr ++ [EvRefresh form error body]) (k error body)) ->
    ensures Q tr (Refresh form k).

End Google.

(** ** Where trust-anchor key material comes from *)

Module Precedence.

Import Google.

Inductive environment_tag : Type := live | sandbox.

Definition tag_name (t : environment_tag) : string :=
  match t with live => "live" | sandbox => "sandbox" end.

Definition config_key (t : environment_tag) : string :=
  match t with
  | live => "googlePublicKeyStrLive"
  | sandbox => "googlePublicKeyStrSandbox"
  end.

Definition variable_name (t : environment_tag) : string :=
  match t with
  | live => ENV_PUBLICKEY.LIVE
  | sandbox => ENV_PUBLICKEY.SANDBOX
  end.

Definition config_string (m : module_state) (t : environment_tag) : option string :=
  if present (config_get m (config_key t)) then config_get m (config_key t) else None.

Definition key_file (h : host) (m : module_state) (t : environment_tag)
  : option string :=
  match keyPath_get (tag_name t) (keyPathMap m) with
  | Some path => option_map (strip_trailing is_whitespace) (files h !! path)
  | None => None
  end.

Definition environment_variable (h : host) (t : environment_tag) : option string :=
  if present (process_env h !! variable_name t)
  then option_map (strip_trailing is_letter_s) (process_env h !! variable_name t)
  else None.

(** The resolution in the words of the specification (sections 3 and 6):
    explicit string, then file, then environment variable, the first one
    present winning for each environment tag on its own. *)
Definition first_present_per_tag (h : host) (m : module_state) (t : environment_tag)
  : option string :=
  match config_string m t with
  | Some key => Some key
  | None =>
      match key_file h m t with
      | Some key => Some key
      | None => environment_variable h t
      end
  end.

(** The three sources, as [setup] tells them apart. *)
Inductive source : Type := ConfigStrings | KeyFiles | EnvironmentVariables.

(** The tests of [setup], in its order: one source for both tags. *)
Definition chosen_source (m : module_state) : source :=
  if present (config_get m "googlePublicKeyStrSandbox")
     || present (config_get m "googlePublicKeyStrLive")
  then ConfigStrings
  else if negb (bool_decide (is_Some (config m)))
          || negb (present (config_get m "googlePublicKeyPath"))
  then EnvironmentVariables
  else KeyFiles.

Definition supplied_by (src : source) (h : host) (m : module_state)
    (t : environment_tag) : option string :=
  match src with
  | ConfigStrings => config_string m t
  | KeyFiles => key_file h m t
  | EnvironmentVariables => environment_variable h t
  end.

(** The last character of a string. *)
Fixpoint last_char (s : string) : option ascii :=
  match s with
  | EmptyString => None
  | String c EmptyString => Some c
  | String _ r => last_char r
  end.

(** The four credentials of a configuration object, all present. *)
Definition credentials_complete (configIn : gmap string string) : bool :=
  present (configIn !! "googleAccToken") && present (configIn !! "googleRefToken")
  && present (configIn !! "googleClientID") && present (configIn !! "googleClientSecret").

Definition credentials_of (configIn : gmap string string) : tokens :=
  {| Credentials.accessToken := str_or_undefined (configIn !! "googleAccToken");
     Credentials.refreshToken := str_or_undefined (configIn !! "googleRefToken");
     Credentials.clientID := str_or_undefined (configIn !! "googleClientID");
     Credentials.clientSecret := str_or_undefined (configIn !! "googleClientSecret") |}.

(** Module variables that agree except, possibly, on the keys: no key is
    lost from the first to the second. *)
Definition keys_only_added (m m' : module_state) : Prop :=
  config m' = config m /\ keyPathMap m' = keyPathMap m /\
  googleTokenMap m' = googleTokenMap m /\
  checkPurchaseState m' = checkPurchaseState m /\
  forall k, is_Some (publicKeyMap m !! k) -> is_Some (publicKeyMap m' !! k).

(** The key names of older configurations. *)
Definition legacy_key (t : environment_tag) : string :=
  match t with
  | live => "publicKeyStrLive"
  | sandbox => "publicKeyStrSandbox"
  end.

(** Every character of a string satisfies [p]. *)
Fixpoint all_chars (p : ascii -> bool) (s : string) : bool :=
  match s with
  | EmptyString => true
  | String c r => p c && all_chars p r
  end.

End Precedence.

(** ** Receipt data as an object *)

Module Canonical.

(** Two objects with the same properties, whatever the order of their
    keys: "equivalent object content (modulo key order)". *)
Definition same_content_modulo_key_order (a b : jsval) : Prop :=
  exists p q,
    a = JObj p /\ b = JObj q /\
    NoDup (List.map fst p) /\ NoDup (List.map fst q) /\
    forall k, assoc_get k p = assoc_get k q.

(** The properties of a receipt once validation has passed its structural
    checks: object-typed data has been replaced by its canonical string. *)
Definition canonical_props (props : list (string * jsval)) (data : jsval)
  : list (string * jsval) :=
  if String.eqb (typeof data) "object" then
    match Google.canonical_data data with
    | Some text => assoc_set "data" (JStr text) props
    | None => props
    end
  else props.

(** The reading of an escaped string: a backslash in front of a slash is
    dropped (as JSON.parse reads [\/]). *)
Fixpoint unescape_slashes (s : string) : string :=
  match s with
  | EmptyString => ""
  | String c r =>
      match r with
      | String c' r' =>
          if Ascii.eqb c "\"%char && Ascii.eqb c' "/"%char
          then String "/"%char (unescape_slashes r')
          else String c (unescape_slashes r)
      | EmptyString => String c ""
      end
  end.

(** No slash of the string is without a backslash in front of it;
    [escaped] tells whether the character before the string is one. *)
Fixpoint slashes_escaped (escaped : bool) (s : string) : bool :=
  match s with
  | EmptyString => true
  | String c r =>
      (if Ascii.eqb c "/"%char then escaped else true)
      && slashes_escaped (Ascii.eqb c "\"%char) r
  end.

End Canonical.

(** ** Answers of the token endpoint that are errors *)

Module Refresh.

Import Google.

(** [failure e error body reported message more]: the answer
    [(error, body)] to a refresh is a transport error, or a body with an
    [error] property whose value has properties; [reported] and [message]
    are the error and the message that go with it, and [more] is what is
    parsed on the way. *)
Inductive failure (e : environment) (error body : jsval)
  : jsval -> jsval -> list event -> Prop :=
| transport_error message :
    truthy error = true ->
    get_prop error "message" = Some message ->
    failure e error body error message []
| error_in_body parsedBody body_error nested :
    truthy error = false ->
    JSON_parse e (to_string body) = Some parsedBody ->
    js_in "error" parsedBody = Some true ->
    get_prop parsedBody "error" = Some body_error ->
    get_prop body_error "message" = Some nested ->
    failure e error body (new_Error (js_or nested body_error)) (js_or nested body_error)
            [EvParse (to_string body) (Some parsedBody)].

Definition refresh_form (w : world) : jsval :=
  let t := googleTokenMap (vars w) in
  JObj [(KEYS.GRANT_TYPE, JStr KEYS.REFRESH_TOKEN);
        (KEYS.CLIENT_ID, Credentials.clientID t);
        (KEYS.CLIENT_SECRET, Credentials.clientSecret t);
        (KEYS.REFRESH_TOKEN, Credentials.refreshToken t)].

Definition bearer (w : world) : string :=
  "Bearer " ++ to_string (Credentials.accessToken (googleTokenMap (vars w))).

End Refresh.

(** ** Shapes of receipts *)

Module Shape.

(** An object that has no data or no signature to show. *)
Definition lacks_content (r : jsval) : bool :=
  match get_prop r "data", get_prop r "signature" with
  | Some data, Some signature => negb (truthy data) || negb (truthy signature)
  | _, _ => false
  end.

(** A receipt that is not an object, or that lacks content ([null] is
    neither: reading a property of it raises). *)
Definition malformed (r : jsval) : bool :=
  negb (String.eqb (typeof r) "object") || lacks_content r.

(** Receipt data that is neither a string nor an object. *)
Definition scalar (data : jsval) : bool :=
  match data with
  | JNum _ | JBool _ => true
  | _ => false
  end.

End Shape.

(** ** What a reconciliation does, seen from outside *)

Module Reconciler.

Import Google.

(** [v.k], undefined when [v] has no properties at all. *)
Definition field (v : jsval) (k : string) : jsval := default JUndefined (get_prop v k).

(** [options && options.subscription]. *)
Definition is_subscription (options : jsval) : jsval :=
  js_and options (field options "subscription").

(** The address of the purchase record of a payload. *)
Definition url_of (data options : jsval) : string :=
  purchase_url (to_string (field data "packageName"))
               (if truthy (is_subscription options) then "subscriptions" else "products")
               (to_string (field data "productId"))
               (to_string (field data "purchaseToken")).

(** A lookup that [getSubInfo] counts as failed. *)
Definition lookup_failed (error body : jsval) : Prop :=
  truthy error = true \/ js_in "error" body = Some true.

(** The remote calls of one reconciliation, in order, with the condition
    under which each sequence arises. *)
Inductive trace_shape (w : world) (url : string) : list event -> Prop :=
| shape_none :
    trace_shape w url []
| shape_lookup error1 body1 :
    truthy error1 = false -> js_in "error" body1 = None ->
    trace_shape w url [EvLookup url (Refresh.bearer w) error1 body1]
| shape_lookup_twice error1 body1 error2 body2 :
    truthy error1 = false -> js_in "error" body1 = Some false ->
    trace_shape w url [EvLookup url (Refresh.bearer w) error1 body1;
                       EvLookup url (Refresh.bearer w) error2 body2]
| shape_refresh error1 body1 error2 body2 :
    lookup_failed error1 body1 -> truthy error2 = true ->
    trace_shape w url [EvLookup url (Refresh.bearer w) error1 body1;
                       EvRefresh (Refresh.refresh_form w) error2 body2]
| shape_refresh_refused error1 body1 error2 body2 parsed :
    lookup_failed error1 body1 -> truthy error2 = false ->
    (parsed = None \/
     exists parsedBody,
       parsed = Some parsedBody /\
       (js_in "error" parsedBody = None \/ js_in "error" parsedBody = Some true)) ->
    trace_shape w url [EvLookup url (Refresh.bearer w) error1 body1;
                       EvRefresh (Refresh.refresh_form w) error2 body2;
                       EvParse (to_string body2) parsed]
| shape_recheck error1 body1 error2 body2 parsedBody token error3 body3 :
    lookup_failed error1 body1 -> truthy error2 = false ->
    js_in "error" parsedBody = Some false ->
    get_prop parsedBody KEYS.ACCESS_TOKEN = Some token ->
    trace_shape w url [EvLookup url (Refresh.bearer w) error1 body1;
                       EvRefresh (Refresh.refresh_form w) error2 body2;
                       EvParse (to_string body2) (Some parsedBody);
                       EvLookup url ("Bearer " ++ to_string token) error3 body3].

(** Module variables that agree except, possibly, on the access token. *)
Definition same_but_accessToken (m' m : module_state) : Prop :=
  config m' = config m /\ keyPathMap m' = keyPathMap m /\
  publicKeyMap m' = publicKeyMap m /\
  checkPurchaseState m' = checkPurchaseState m /\
  Credentials.refreshToken (googleTokenMap m') = Credentials.refreshToken (googleTokenMap m) /\
  Credentials.clientID (googleTokenMap m') = Credentials.clientID (googleTokenMap m) /\
  Credentials.clientSecret (googleTokenMap m') = Credentials.clientSecret (googleTokenMap m).

(** What the caller's callback may be given by a reconciliation of [data]:
    a truthy error with a FAILURE envelope, or no error with the payload,
    which is an object or not as [data] is, in which only [service],
    [autoRenewing] and [expirationTime] may differ from [data], and only
    [service] unless it is a subscription. *)
Definition result_contract (data options : jsval) (o : outcome) : Prop :=
  match o with
  | Called _ error result =>
      if truthy error then exists message, result = failure_envelope message
      else
        error = JNull /\
        truthy result = truthy data /\
        (forall k, k <> "service" -> k <> "autoRenewing" -> k <> "expirationTime" ->
                   get_prop result k = get_prop data k) /\
        (truthy (is_subscription options) = false ->
         set_prop data "service" Constants.SERVICES_GOOGLE = Some result)
  | Threw _ _ => True
  | Stalled _ => False
  end.

(** The payload handed back after a successful reconciliation of a
    subscription carries the subscription fields of the body of the last
    lookup. *)
Definition carries_last_lookup (tr : list event) (o : outcome) : Prop :=
  match o with
  | Called _ error result =>
      truthy error = false ->
      exists before url authorization lookup_error body,
        tr = (before ++ [EvLookup url authorization lookup_error body])%list /\
        get_prop result "autoRenewing" = get_prop body "autoRenewing" /\
        get_prop result "expirationTime" = get_prop body "expiryTimeMillis"
  | _ => True
  end.

(** How a call of refreshToken in the world [w] may end: a truthy error
    with a FAILURE envelope and the world untouched, or no error, the
    parsed response and its access token stored. *)
Definition refresh_contract (w : world) (o : outcome) : Prop :=
  match o with
  | Called w' error result =>
      if truthy error then w' = w /\ exists message, result = failure_envelope message
      else
        error = JNull /\
        exists token,
          get_prop result KEYS.ACCESS_TOKEN = Some token /\
          w' = set_accessToken token w
  | Threw w' _ => w' = w
  | Stalled _ => False
  end.

(** The item that getPurchaseData makes of a purchase record names the
    purchase: token, order, product and time of purchase, one piece. *)
Definition identifies (purchase : jsval) (info : list (string * jsval)) : Prop :=
  assoc_get "transactionId" info = Some (field purchase "purchaseToken") /\
  assoc_get "orderId" info = Some (field purchase "orderId") /\
  assoc_get "productId" info = Some (field purchase "productId") /\
  assoc_get "purchaseDate" info = Some (field purchase "purchaseTime") /\
  assoc_get "quantity" info = Some (JNum 1).

(** How a reconciliation ends when its refresh was refused.  After a
    transport error of the token endpoint the callback gets that error;
    after a response whose [error] property is neither null nor undefined
    it gets an Error made of the nested message, or of the property itself
    when there is no nested message.  In both cases the result is a FAILURE
    envelope, and the world is the one the reconciliation started in. *)
Definition refused_refresh_is_reported (w : world) (tr : list event) (o : outcome)
  : Prop :=
  match tr with
  | [EvLookup _ _ _ _; EvRefresh _ error _] =>
      o = Called w error (failure_envelope (field error "message"))
  | [EvLookup _ _ _ _; EvRefresh _ _ _; EvParse _ (Some parsedBody)] =>
      js_in "error" parsedBody = Some true ->
      let body_error := field parsedBody "error" in
      body_error <> JNull -> body_error <> JUndefined ->
      let message := js_or (field body_error "message") body_error in
      o = Called w (new_Error message) (failure_envelope message)
  | _ => True
  end.

End Reconciler.

(** ** Key material in its envelope *)

Module Pem.

Import Google.

(** A string with the characters that [.] does not match left out. *)
Fixpoint without_line_terminators (s : string) : string :=
  match s with
  | EmptyString => ""
  | String c r =>
      if is_line_terminator c then without_line_terminators r
      else String c (without_line_terminators r)
  end.

(** A line of the envelope: at most [len] characters, none of them a line
    terminator. *)
Definition line_of (len : nat) (s : string) : Prop :=
  (String.length s <= len)%nat /\ without_line_terminators s = s.

Definition header : string := "-----BEGIN PUBLIC KEY-----".
Definition footer : string := "-----END PUBLIC KEY-----".

End Pem.

(** ** Concrete configurations, receipts and environments *)

Module Scenarios.

Import Constants Google.

Definition no_host : host := {| process_env := ∅; files := ∅ |}.

(** A configuration with a live key string and the full credential tuple. *)
Definition live_and_credentials : gmap string string :=
  list_to_map [("googlePublicKeyStrLive", "LIVEKEY");
               ("googleAccToken", "stale-token");
               ("googleRefToken", "refresh-me");
               ("googleClientID", "client");
               ("googleClientSecret", "secret")].

(** The same without credentials: [checkPurchaseState] stays false. *)
Definition live_only : gmap string string :=
  list_to_map [("googlePublicKeyStrLive", "LIVEKEY")].

(** Both key strings, no credentials. *)
Definition live_and_sandbox : gmap string string :=
  list_to_map [("googlePublicKeyStrLive", "LIVEKEY");
               ("googlePublicKeyStrSandbox", "SANDBOXKEY")].

(** The module after [readConfig] and [setup] on a fresh process. *)
Definition configured (h : host) (cfg : gmap string string) : module_state :=
  setup h (readConfig (Some cfg) reset) (fun m => m).

Definition payload : jsval :=
  JObj [("packageName", JStr "com.example.app");
        ("productId", JStr "coins");
        ("purchaseToken", JStr "tok")].

Definition payload_text : string := default "" (canonical_data payload).

(** A receipt whose data is still an object, held by the caller at
    location 1. *)
Definition receipt_object : jsval :=
  JObj [("data", payload); ("signature", JStr "c2lnbmVk")].

Definition caller_heap : gmap loc jsval := {[ 1%positive := receipt_object ]}.

Definition world_of (cfg : gmap string string) : world :=
  {| vars := configured no_host cfg; heap := caller_heap |}.

(** JSON.parse restricted to the texts of a table of values. *)
Fixpoint parse_among (table : list jsval) (text : string) : option jsval :=
  match table with
  | [] => None
  | v :: rest =>
      if bool_decide (JSON_stringify v = Some text) then Some v
      else parse_among rest text
  end.

Definition pem (key : string) : string := default "" (getPublicKey (Some key)).

(** The signature verifies against exactly the keys of [good]. *)
Definition verifies_against (good : list string) : string -> string -> jsval -> verify_result :=
  fun pkey _ _ => if bool_decide (pkey ∈ List.map pem good) then VTrue else VFalse.

Definition purchase_record : jsval := JObj [("purchaseState", JNum 0)].

Definition token_response : jsval := JObj [("access_token", JStr "fresh-token")].

Definition remote_error : jsval :=
  JObj [("error", JObj [("code", JNum 401); ("message", JStr "Invalid Credentials")])].

Definition text_of (v : jsval) : jsval := str_or_undefined (JSON_stringify v).

Definition known_texts : list jsval :=
  [payload; token_response; remote_error;
   JObj [("error", JNull)]; JObj [("error", JStr "invalid_grant")]].

(** Every lookup succeeds. *)
Definition healthy (good : list string) : environment :=
  {| crypto_verify := verifies_against good;
     JSON_parse := parse_among known_texts;
     purchases_endpoint := fun _ _ _ => (JNull, purchase_record);
     token_endpoint := fun _ _ => (JNull, text_of token_response) |}.

(** A lookup is refused while the access token is the stale one. *)
Definition stale_token (good : list string) : environment :=
  {| crypto_verify := verifies_against good;
     JSON_parse := parse_among known_texts;
     purchases_endpoint := fun _ _ authorization =>
       if String.eqb authorization "Bearer stale-token" then (JNull, remote_error)
       else (JNull, purchase_record);
     token_endpoint := fun _ _ => (JNull, text_of token_response) |}.

(** The world in which verification of the caller's receipt starts. *)
Definition verification_world (cfg : gmap string string) : world :=
  default (world_of cfg) (canonicalize_receipt 1%positive payload (world_of cfg)).

(** Every lookup is refused and the token endpoint answers the refresh
    with status 200 and the given JSON body. *)
Definition refresh_answered (good : list string) (body : jsval) : environment :=
  {| crypto_verify := verifies_against good;
     JSON_parse := parse_among known_texts;
     purchases_endpoint := fun _ _ _ => (JNull, remote_error);
     token_endpoint := fun _ _ => (JNull, text_of body) |}.

(** The first lookup is refused, the refresh succeeds, and the second
    lookup dies in transport: an error and no body. *)
Definition recheck_times_out (good : list string) : environment :=
  {| crypto_verify := verifies_against good;
     JSON_parse := parse_among known_texts;
     purchases_endpoint := fun _ _ authorization =>
       if String.eqb authorization "Bearer stale-token" then (JNull, remote_error)
       else (JErr "ETIMEDOUT", JUndefined);
     token_endpoint := fun _ _ => (JNull, text_of token_response) |}.

(** The token endpoint answers with a page that is not JSON. *)
Definition gateway_page (good : list string) : environment :=
  {| crypto_verify := verifies_against good;
     JSON_parse := parse_among known_texts;
     purchases_endpoint := fun _ _ _ => (JNull, remote_error);
     token_endpoint := fun _ _ => (JNull, JStr "<html>502 Bad Gateway</html>") |}.

(** A payload as the verifier hands it to the reconciler. *)
Definition verified_payload : jsval :=
  JObj [("packageName", JStr "com.example.app");
        ("productId", JStr "coins");
        ("purchaseToken", JStr "tok");
        ("status", VALIDATION SUCCESS)].

(** A host with both keys in the environment and both key files on disk. *)
Definition full_host : host :=
  {| process_env :=
       list_to_map [(ENV_PUBLICKEY.SANDBOX, "ENVSANDBOX");
                    (ENV_PUBLICKEY.LIVE, "ENVLIVE")];
     files :=
       list_to_map [("keys/iap-sandbox", "FILESANDBOX" ++ nl);
                    ("keys/iap-live", "FILELIVE" ++ nl)] |}.

(** A host with the keys in the environment only; the live one ends in a
    line feed, the sandbox one in the letter s. *)
Definition environment_host : host :=
  {| process_env :=
       list_to_map [(ENV_PUBLICKEY.SANDBOX, "ENVKEYss");
                    (ENV_PUBLICKEY.LIVE, "ENVLIVE" ++ nl)];
     files := ∅ |}.

(** A configured key path and nothing else. *)
Definition path_only : gmap string string :=
  list_to_map [("googlePublicKeyPath", "keys/")].

(** A live key string together with a key path. *)
Definition live_and_path : gmap string string :=
  list_to_map [("googlePublicKeyStrLive", "LIVEKEY");
               ("googlePublicKeyPath", "keys/")].

(** The payload with its keys in another order. *)
Definition payload_reordered : jsval :=
  JObj [("purchaseToken", JStr "tok");
        ("productId", JStr "coins");
        ("packageName", JStr "com.example.app")].

(** A receipt whose data is an object and that has no signature. *)
Definition receipt_unsigned : jsval := JObj [("data", payload)].

(** The module configured by [cfg] on a bare host, and the caller holding
    [receipt] at location 1. *)
Definition world_holding (cfg : gmap string string) (receipt : jsval) : world :=
  {| vars := configured no_host cfg; heap := {[ 1%positive := receipt ]} |}.

(** A configuration object without entries. *)
Definition nothing_configured : gmap string string := ∅.

(** A signed receipt whose data is a number. *)
Definition receipt_scalar : jsval :=
  JObj [("data", JNum 7); ("signature", JStr "c2lnbmVk")].

(** An older configuration: the live key under its legacy name only. *)
Definition legacy_only : gmap string string :=
  list_to_map [("publicKeyStrLive", "OLDKEY")].

(** The legacy name beside the present one. *)
Definition legacy_beside_present : gmap string string :=
  list_to_map [("publicKeyStrLive", "OLDKEY");
               ("googlePublicKeyStrLive", "NEWKEY")].

(** A verified subscription purchase, as the store signs it. *)
Definition subscription_payload : list (string * jsval) :=
  [("orderId", JStr "GPA.1234");
   ("packageName", JStr "com.example.app");
   ("productId", JStr "monthly");
   ("purchaseTime", JNum 1500000000000);
   ("purchaseToken", JStr "tok");
   ("expirationTime", JNum 1600000000000)].

Definition for_subscription : jsval := JObj [("subscription", JBool true)].

Definition subscription_record : jsval :=
  JObj [("autoRenewing", JBool true); ("expiryTimeMillis", JStr "1700000000000")].

(** Every lookup finds the subscription. *)
Definition subscribed (good : list string) : environment :=
  {| crypto_verify := verifies_against good;
     JSON_parse := parse_among known_texts;
     purchases_endpoint := fun _ _ _ => (JNull, subscription_record);
     token_endpoint := fun _ _ => (JNull, text_of token_response) |}.

(** A payload whose developerPayload holds slashes. *)
Definition payload_with_slashes : jsval :=
  JObj [("productId", JStr "coins"); ("developerPayload", JStr "shop/7/basket")].

Definition slashes_text : string := default "" (canonical_data payload_with_slashes).

End Scenarios.

Import Constants Google.

(** * Properties *)

(** ** Reasoning along the paths of a run *)

Lemma count_snoc (p : event -> bool) (tr : list event) (ev : event) :
  count p (tr ++ [ev]) = (count p tr + (if p ev then 1 else 0))%nat.
Proof.
  unfold count. rewrite List.filter_app, List.length_app. simpl.
  destruct (p ev); reflexivity.
Qed.

(** A property established along every path holds of the run against any
    environment. *)
Lemma run_along (Q : nat -> nat -> outcome -> Prop) a b p :
  along Q a b p ->
  forall e past,
    count is_lookup past = a -> count is_refresh past = b ->
    Q (count is_lookup (fst (run e p past)))
      (count is_refresh (fst (run e p past)))
      (snd (run e p past)).
Proof.
  induction 1 as [a b o HQ | a b pk d s k _ IH | a b t k _ IH
                 | a b u au k _ IH | a b f k _ IH];
    intros e past Ha Hb; simpl.
  - subst; exact HQ.
  - apply IH; rewrite count_snoc; simpl; lia.
  - apply IH; rewrite count_snoc; simpl; lia.
  - apply IH; rewrite count_snoc; simpl; lia.
  - apply IH; rewrite count_snoc; simpl; lia.
Qed.

(** Case analysis on whatever decides the next branch of a program. *)
Ltac branch :=
  match goal with
  | |- along _ _ _ (Lookup _ _ _) => apply along_Lookup; intros
  | |- along _ _ _ (Refresh _ _) => apply along_Refresh; intros
  | |- along _ _ _ (Parse _ _) => apply along_Parse; intros
  | |- along _ _ _ (Verify _ _ _ _) => apply along_Verify; intros
  | |- along _ _ _ (match ?c with _ => _ end) => destruct c eqn:?
  end.

Ltac walk_with leaf :=
  repeat (cbv beta iota; cbn [truthy negb js_and js_or]; first [branch | leaf]).

(** The verifier reaches no remote endpoint and leaves the world as it is:
    it ends by an exception or in its callback. *)
Lemma along_validatePublicKey Q a b receipt pkey w cb :
  (forall x, Q a b (Threw w x)) ->
  (forall error data, along Q a b (cb w error data)) ->
  along Q a b (validatePublicKey receipt pkey w cb).
Proof.
  intros HT Hcb.
  cbv beta iota zeta delta [validatePublicKey or_throw].
  walk_with ltac:(first [ apply Hcb | apply along_Done, HT ]).
Qed.

(** The reconciler makes at most two lookups and one refresh, and changes
    nothing of the world but the access token. *)
Lemma along_checkPurchaseStatus Q a b data options w cb :
  (forall a' b' w' x,
      (a <= a' <= a + 2)%nat -> (b <= b' <= b + 1)%nat -> heap w' = heap w ->
      Q a' b' (Threw w' x)) ->
  (forall a' b' w' error result,
      (a <= a' <= a + 2)%nat -> (b <= b' <= b + 1)%nat -> heap w' = heap w ->
      along Q a' b' (cb w' error result)) ->
  along Q a b (checkPurchaseStatus data options w cb).
Proof.
  intros HT Hcb.
  cbv beta iota zeta delta
    [checkPurchaseStatus Async.series tasks getSubInfo validate recheck done
     getPurchaseInfo refreshGoogleTokens copy_subscription or_throw
     with_state with_data with_world is_state state cw Google.data].
  walk_with ltac:(first [ apply Hcb; [lia | lia | reflexivity]
                        | apply along_Done, HT; [lia | lia | reflexivity] ]).
Qed.

(** ** Bound on the remote calls of one validation *)

Lemma along_validatePurchase_bound dPubkey receipt options w :
  along (fun a b _ => (a <= 2)%nat /\ (b <= 1)%nat) 0 0
        (validatePurchase dPubkey receipt options w report).
Proof.
  cbv beta iota zeta delta [validatePurchase or_throw report].
  walk_with ltac:(first
    [ apply along_Done; lia
    | apply along_validatePublicKey; [intros; lia | intros]
    | apply along_checkPurchaseStatus; [intros; lia | intros; apply along_Done; lia] ]).
Qed.

(** C1: whatever the receipt, the module state, the keys and the answers of
    the crypto primitive, of JSON.parse and of the two remote endpoints, one
    call of validatePurchase makes at most two purchase-status lookups and
    at most one credential refresh. *)
Theorem validatePurchase_remote_call_bound :
  forall (e : environment) (dPubkey : option string) (receipt : loc)
         (options : jsval) (w : world),
    let trace := fst (run e (validatePurchase dPubkey receipt options w report) []) in
    (count is_lookup trace <= 2)%nat /\ (count is_refresh trace <= 1)%nat.
Proof.
  intros e dPubkey receipt options w trace.
  exact (run_along _ 0 0 _ (along_validatePurchase_bound dPubkey receipt options w)
                   e [] eq_refl eq_refl).
Qed.

(** The bound of C1 is reached: with a stale access token the first lookup
    is refused, the token is refreshed once and the lookup is repeated. *)
Example stale_token_two_lookups_one_refresh :
  let r := run (Scenarios.stale_token ["LIVEKEY"])
               (validatePurchase None 1%positive JUndefined
                  (Scenarios.world_of Scenarios.live_and_credentials) report) [] in
  count is_lookup (fst r) = 2%nat /\ count is_refresh (fst r) = 1%nat /\
  match snd r with
  | Called w error result =>
      error = JNull /\
      Credentials.accessToken (googleTokenMap (vars w)) = JStr "fresh-token"
  | _ => False
  end.
Proof. vm_compute. repeat split. Qed.

(** ** Lookups after a successful first lookup *)

(** C2: a receipt that verifies against the live key, with
    [checkPurchaseState] true and a first lookup that succeeds.  Only the
    live key is consulted and no refresh happens, yet the run makes two
    purchase-status lookups: [validate] leaves [state] at SUCCESS, so
    [recheck] looks up again. *)
Theorem live_verified_first_lookup_ok_looks_up_twice :
  let r := run (Scenarios.healthy ["LIVEKEY"])
               (validatePurchase None 1%positive JUndefined
                  (Scenarios.world_of Scenarios.live_and_credentials) report) [] in
  checkPurchaseState (vars (Scenarios.world_of Scenarios.live_and_credentials)) = true /\
  keys_consulted (fst r) = [Scenarios.pem "LIVEKEY"] /\
  count is_refresh (fst r) = 0%nat /\
  count is_lookup (fst r) = 2%nat /\
  match snd r with
  | Called _ error _ => error = JNull
  | _ => False
  end.
Proof. vm_compute. repeat split. Qed.

(** ** The error of a failed verification *)

(** The verifier in continuation-passing style is the verifier followed
    by its continuation: it calls back at most once, in the world it was
    given, and what it did does not depend on what happened before. *)
Lemma run_validatePublicKey e receipt pkey w cb past tr o :
  run e (validatePublicKey receipt pkey w report) [] = (tr, o) ->
  final_world o = w /\
  run e (validatePublicKey receipt pkey w cb) past =
    match o with
    | Called w' error data => run e (cb w' error data) (past ++ tr)
    | _ => ((past ++ tr)%list, o)
    end.
Proof.
  cbv beta iota zeta delta [validatePublicKey or_throw report].
  repeat match goal with
         | |- context [run _ (match ?c with _ => _ end) _] => destruct c eqn:?
         | |- context [match crypto_verify ?e ?a ?b ?c with _ => _ end] =>
             destruct (crypto_verify e a b c) eqn:?
         | |- context [match JSON_parse ?e ?a with _ => _ end] =>
             destruct (JSON_parse e a) eqn:?
         | _ => progress (cbn [run fst snd app])
         end;
    intros [= <- <-]; cbn [final_world app];
    rewrite <- ?List.app_assoc, ?List.app_nil_r; cbn [app]; auto.
Qed.

(** C3: when the receipt gets as far as verification and the first attempt
    (against the dynamic key if one is given, else against the live key)
    fails with an error, then, if no sandbox key is configured, or if one
    is and the attempt against it fails too, validatePurchase calls back
    with exactly the error of the first attempt, and with a FAILURE envelope
    carrying that error's message. *)
Theorem first_attempt_error_is_reported :
  forall (e : environment) (dPubkey : option string) (receipt : loc)
         (options data signature : jsval) (w w1 wa : world)
         (tr1 : list event) (err1 d1 : jsval),
    typeof (deref w receipt) = "object" ->
    get_prop (deref w receipt) "data" = Some data -> truthy data = true ->
    get_prop (deref w receipt) "signature" = Some signature ->
    truthy signature = true ->
    canonicalize_receipt receipt data w = Some w1 ->
    let first_key :=
      if present dPubkey then dPubkey else publicKeyMap (vars w1) !! "live" in
    let sandbox := publicKeyMap (vars w1) !! "sandbox" in
    run e (validatePublicKey receipt (getPublicKey first_key) w1 report) []
      = (tr1, Called wa err1 d1) ->
    truthy err1 = true ->
    (present sandbox = false \/
     exists tr2 wb err2 d2,
       run e (validatePublicKey receipt (getPublicKey sandbox) w1 report) []
         = (tr2, Called wb err2 d2) /\ truthy err2 = true) ->
    exists message,
      get_prop err1 "message" = Some message /\
      snd (run e (validatePurchase dPubkey receipt options w report) [])
        = Called w1 err1 (failure_envelope message).
Proof.
  intros e dPubkey receipt options data signature w w1 wa tr1 err1 d1
         Hty Hdata Tdata Hsig Tsig Hcanon first_key sandbox Hfirst Terr Hsandbox.
  assert (Hmsg : exists message, get_prop err1 "message" = Some message).
  { destruct err1; try discriminate; simpl; eauto. }
  destruct Hmsg as [message Hmsg]. exists message. split; [exact Hmsg|].
  unfold validatePurchase.
  rewrite Hty. cbn [String.eqb Ascii.eqb Bool.eqb negb].
  rewrite Hdata. cbn [or_throw]. rewrite Hsig. cbn [or_throw].
  rewrite Tdata, Tsig. cbn [negb orb]. rewrite Hcanon. cbn [or_throw].
  fold first_key.
  match goal with
  | |- context [validatePublicKey receipt (getPublicKey first_key) w1 ?k] =>
      destruct (run_validatePublicKey e receipt (getPublicKey first_key) w1 k []
                  tr1 (Called wa err1 d1) Hfirst) as [Hw ->]
  end.
  cbn [final_world] in Hw. subst wa.
  rewrite Terr. fold sandbox.
  destruct Hsandbox as [Hnone | (tr2 & wb & err2 & d2 & Hsecond & Terr2)].
  - rewrite Hnone. cbn [negb]. rewrite Hmsg. reflexivity.
  - destruct (present sandbox); cbn [negb].
    + match goal with
      | |- context [validatePublicKey receipt (getPublicKey sandbox) w1 ?k] =>
          destruct (run_validatePublicKey e receipt (getPublicKey sandbox) w1 k
                      ([] ++ tr1) tr2 (Called wb err2 d2) Hsecond) as [Hw ->]
      end.
      cbn [final_world] in Hw. subst wb.
      rewrite Terr2, Hmsg. reflexivity.
    + rewrite Hmsg. reflexivity.
Qed.

(** Both keys configured and a signature that verifies against neither:
    the caller gets the error of the attempt against the live key. *)
Lemma first_attempt_error_is_reported_witness :
  exists message,
    get_prop (JErr "failed to validate purchase") "message" = Some message /\
    snd (run (Scenarios.healthy [])
             (validatePurchase None 1%positive JUndefined
                (Scenarios.world_of Scenarios.live_and_sandbox) report) [])
      = Called (Scenarios.verification_world Scenarios.live_and_sandbox)
               (JErr "failed to validate purchase") (failure_envelope message).
Proof.
  apply (first_attempt_error_is_reported
           (Scenarios.healthy []) None 1%positive JUndefined
           Scenarios.payload (JStr "c2lnbmVk")
           (Scenarios.world_of Scenarios.live_and_sandbox)
           (Scenarios.verification_world Scenarios.live_and_sandbox)
           (Scenarios.verification_world Scenarios.live_and_sandbox)
           [EvVerify (Scenarios.pem "LIVEKEY") Scenarios.payload_text
                     (JStr "c2lnbmVk") VFalse]
           (JErr "failed to validate purchase") JUndefined).
  - vm_compute; reflexivity.
  - vm_compute; reflexivity.
  - vm_compute; reflexivity.
  - vm_compute; reflexivity.
  - vm_compute; reflexivity.
  - vm_compute; reflexivity.
  - vm_compute; reflexivity.
  - vm_compute; reflexivity.
  - right.
    exists [EvVerify (Scenarios.pem "SANDBOXKEY") Scenarios.payload_text
                     (JStr "c2lnbmVk") VFalse],
           (Scenarios.verification_world Scenarios.live_and_sandbox),
           (JErr "failed to validate purchase"), JUndefined.
    split; vm_compute; reflexivity.
Defined.

(** ** A credential refresh that errors *)

(** C4: the first lookup is refused and the token endpoint answers the
    refresh with the body [{"error":null}].  The body has an [error] field,
    so [validate] takes the error branch, where reading
    [parsedBody.error.message] raises a TypeError inside the callback of
    [request]: no recheck lookup is made, but the caller's callback is
    never invoked, neither with the refresh error nor with a FAILURE
    envelope.  The exported refreshToken reports the same body through
    its callback. *)
Theorem refresh_error_null_escapes_as_exception :
  let w := Scenarios.world_of Scenarios.live_and_credentials in
  let e := Scenarios.refresh_answered ["LIVEKEY"] (JObj [("error", JNull)]) in
  let r := run e (validatePurchase None 1%positive JUndefined w report) [] in
  js_in "error" (JObj [("error", JNull)]) = Some true /\
  count is_lookup (fst r) = 1%nat /\ count is_refresh (fst r) = 1%nat /\
  snd r = Threw (Scenarios.verification_world Scenarios.live_and_credentials) TypeError /\
  throws_in_request_callback r = true /\
  snd (run e (refreshToken w report) [])
    = Called w (JErr "null") (failure_envelope JNull).
Proof. vm_compute. repeat split. Qed.

(** With a string in the [error] field the same run ends as C4 says. *)
Example refresh_error_string_is_reported :
  let w := Scenarios.world_of Scenarios.live_and_credentials in
  let e := Scenarios.refresh_answered ["LIVEKEY"] (JObj [("error", JStr "invalid_grant")]) in
  let r := run e (validatePurchase None 1%positive JUndefined w report) [] in
  count is_lookup (fst r) = 1%nat /\ count is_refresh (fst r) = 1%nat /\
  snd r = Called (Scenarios.verification_world Scenarios.live_and_credentials)
                 (JErr "invalid_grant") (failure_envelope (JStr "invalid_grant")).
Proof. vm_compute. repeat split. Qed.

(** ** Exceptions that escape from a callback of [request] *)

(** C7: two runs in which a failure is not reported through the callback.
    In the first the recheck lookup ends in a transport error without a
    body: [recheck] reads [body.error.message] before it looks at [error],
    which raises a TypeError.  In the second the token endpoint answers
    refreshToken with a page that is not JSON: [JSON.parse] raises a
    SyntaxError.  Both exceptions are raised inside the callback given to
    [request], after the remote call. *)
Theorem failures_escape_as_exceptions :
  let w := Scenarios.world_of Scenarios.live_and_credentials in
  let r1 := run (Scenarios.recheck_times_out ["LIVEKEY"])
                (validatePurchase None 1%positive JUndefined w report) [] in
  let r2 := run (Scenarios.gateway_page ["LIVEKEY"]) (refreshToken w report) [] in
  (exists w', snd r1 = Threw w' TypeError) /\
  count is_lookup (fst r1) = 2%nat /\ count is_refresh (fst r1) = 1%nat /\
  throws_in_request_callback r1 = true /\
  snd r2 = Threw w SyntaxError /\
  throws_in_request_callback r2 = true.
Proof. vm_compute. repeat split. eexists. reflexivity. Qed.

(** ** The reconciler without credentials *)

Lemma assoc_get_set_other k k' x ps :
  k <> k' -> assoc_get k (assoc_set k' x ps) = assoc_get k ps.
Proof.
  intros Hne. induction ps as [|[k0 y] ps IH]; simpl.
  - destruct (String.eqb_spec k k'); [contradiction | reflexivity].
  - destruct (String.eqb_spec k' k0) as [-> | Hk0]; simpl.
    + destruct (String.eqb_spec k k0); [contradiction | reflexivity].
    + destruct (String.eqb_spec k k0); [reflexivity | exact IH].
Qed.

Lemma get_set_prop_other v k k' x v' :
  k <> k' -> set_prop v k' x = Some v' -> get_prop v' k = get_prop v k.
Proof.
  intros Hne H. destruct v; simpl in H; inversion H; subst; try reflexivity.
  simpl. rewrite assoc_get_set_other by exact Hne. reflexivity.
Qed.

(** C5 as stated fails: without credentials the reconciler hands back the
    verified payload with a [service] property that it did not have. *)
Lemma passthrough_adds_service :
  let w := Scenarios.world_of Scenarios.live_only in
  checkPurchaseState (vars w) = false /\
  (exists returned,
      run (Scenarios.healthy ["LIVEKEY"])
          (checkPurchaseStatus Scenarios.verified_payload JUndefined w report) []
        = ([], Called w JNull returned) /\
      returned <> Scenarios.verified_payload /\
      get_prop Scenarios.verified_payload "service" = Some JUndefined /\
      get_prop returned "service" = Some (JStr "GOOGLE")).
Proof.
  split; [reflexivity |].
  eexists. split; [vm_compute; reflexivity |].
  split; [discriminate | split; reflexivity].
Qed.

(** C5, amended: when [checkPurchaseState] is false the reconciler calls
    back with a null error and with the payload whose [service] property
    has been set to the service tag and whose other properties are
    unchanged, and it makes no call to the outside at all. *)
Theorem passthrough_sets_service_only :
  forall (e : environment) (data options : jsval) (w : world) (past : list event),
    checkPurchaseState (vars w) = false ->
    data <> JNull -> data <> JUndefined ->
    exists returned,
      set_prop data "service" SERVICES_GOOGLE = Some returned /\
      run e (checkPurchaseStatus data options w report) past
        = (past, Called w JNull returned) /\
      (forall k, k <> "service" -> get_prop returned k = get_prop data k).
Proof.
  intros e data options w past Hoff Hnull Hundef.
  destruct (set_prop data "service" SERVICES_GOOGLE) as [returned|] eqn:Hset.
  - exists returned. split; [reflexivity | split].
    + unfold checkPurchaseStatus. rewrite Hset. cbn [or_throw].
      rewrite Hoff. reflexivity.
    + intros k Hk. eapply get_set_prop_other; eassumption.
  - destruct data; simpl in Hset; congruence.
Qed.

Lemma passthrough_sets_service_only_witness :
  exists returned,
    set_prop Scenarios.verified_payload "service" SERVICES_GOOGLE = Some returned /\
    run (Scenarios.healthy ["LIVEKEY"])
        (checkPurchaseStatus Scenarios.verified_payload JUndefined
           (Scenarios.world_of Scenarios.live_only) report) []
      = ([], Called (Scenarios.world_of Scenarios.live_only) JNull returned) /\
    (forall k, k <> "service" ->
               get_prop returned k = get_prop Scenarios.verified_payload k).
Proof.
  apply (passthrough_sets_service_only
           (Scenarios.healthy ["LIVEKEY"]) Scenarios.verified_payload JUndefined
           (Scenarios.world_of Scenarios.live_only) []).
  - vm_compute; reflexivity.
  - discriminate.
  - discriminate.
Defined.

(** ** Sources of key material *)

Import Precedence.

Lemma present_Some (o : option string) :
  present o = true -> o = Some (default "" o).
Proof. destruct o; [reflexivity | discriminate]. Qed.

Lemma config_get_set_publicKey k v m k' :
  config_get (set_publicKey k v m) k' = config_get m k'.
Proof. reflexivity. Qed.

Ltac lookup_publicKey :=
  cbn [publicKeyMap set_publicKey];
  repeat first [ rewrite lookup_insert_eq
               | rewrite lookup_insert_ne by discriminate ];
  try reflexivity.

(** [setup] takes the keys of both tags from the one source it chooses; a
    tag without key in that source keeps what [publicKeyMap] had. *)
Lemma setup_publicKeyMap (h : host) (m : module_state) (t : environment_tag) :
  (chosen_source m = KeyFiles ->
   exists ps pl, keyPathMap m = [("sandbox", ps); ("live", pl)]) ->
  publicKeyMap (setup h m (fun m' => m')) !! tag_name t =
    match supplied_by (chosen_source m) h m t with
    | Some key => Some key
    | None => publicKeyMap m !! tag_name t
    end.
Proof.
  intros Hshape. unfold setup, chosen_source in *.
  destruct (present (config_get m "googlePublicKeyStrSandbox")) eqn:HS;
    destruct (present (config_get m "googlePublicKeyStrLive")) eqn:HL;
    cbn [orb supplied_by]; unfold config_string;
    rewrite ?config_get_set_publicKey, ?HS, ?HL;
    try (destruct t; cbn [config_key tag_name]; rewrite ?HS, ?HL;
         try rewrite (present_Some _ HS) at 2; try rewrite (present_Some _ HL) at 2;
         lookup_publicKey; fail).
  destruct (negb (bool_decide (is_Some (config m)))
            || negb (present (config_get m "googlePublicKeyPath"))) eqn:HP;
    cbn [supplied_by].
  - unfold environment_variable.
    destruct (present (process_env h !! ENV_PUBLICKEY.SANDBOX)) eqn:ES;
      destruct (present (process_env h !! ENV_PUBLICKEY.LIVE)) eqn:EL;
      destruct t; cbn [variable_name tag_name]; rewrite ?ES, ?EL;
      try rewrite (present_Some _ ES); try rewrite (present_Some _ EL);
      cbn [option_map default]; lookup_publicKey.
  - destruct (Hshape eq_refl) as (ps & pl & Hkeys).
    unfold key_file. rewrite Hkeys.
    cbn [List.map fst Async.eachSeries keyPathMap set_publicKey truthy].
    rewrite Hkeys.
    change (keyPath_get "sandbox" [("sandbox", ps); ("live", pl)]) with (Some ps).
    change (keyPath_get "live" [("sandbox", ps); ("live", pl)]) with (Some pl).
    cbv [default from_option id].
    destruct (files h !! ps) eqn:FS; destruct (files h !! pl) eqn:FL;
      destruct t; cbn [tag_name];
      change (keyPath_get "sandbox" [("sandbox", ps); ("live", pl)]) with (Some ps);
      change (keyPath_get "live" [("sandbox", ps); ("live", pl)]) with (Some pl);
      lookup_publicKey; unfold lookup in *; rewrite ?FS, ?FL; reflexivity.
Qed.

Lemma readConfig_publicKeyMap configIn m :
  publicKeyMap (readConfig configIn m) = publicKeyMap m.
Proof.
  unfold readConfig. destruct configIn as [cin|]; [|reflexivity].
  destruct (negb _); reflexivity.
Qed.

(** After [readConfig] on a fresh module, a configuration that makes
    [setup] read files has the two key paths, sandbox first. *)
Lemma readConfig_keyPathMap configIn :
  chosen_source (readConfig configIn reset) = KeyFiles ->
  exists ps pl, keyPathMap (readConfig configIn reset) = [("sandbox", ps); ("live", pl)].
Proof.
  unfold readConfig. destruct configIn as [cin|]; [|discriminate].
  destruct (negb _); [discriminate|].
  intros _. eexists _, _. reflexivity.
Qed.

(** C6 as stated fails.  With a live key string and a key path configured,
    the sandbox key file on disk is never read; with only a key path
    configured and no key files, the environment variables are never
    consulted.  In both cases the resolution per tag would find a key. *)
Lemma lower_source_does_not_supply_other_tag :
  let m1 := readConfig (Some Scenarios.live_and_path) reset in
  let m2 := readConfig (Some Scenarios.path_only) reset in
  (first_present_per_tag Scenarios.full_host m1 sandbox = Some "FILESANDBOX" /\
   publicKeyMap (setup Scenarios.full_host m1 (fun m => m)) !! "sandbox" = None /\
   publicKeyMap (setup Scenarios.full_host m1 (fun m => m)) !! "live" = Some "LIVEKEY") /\
  (first_present_per_tag Scenarios.environment_host m2 sandbox = Some "ENVKEY" /\
   publicKeyMap (setup Scenarios.environment_host m2 (fun m => m)) !! "sandbox" = None).
Proof. vm_compute. repeat split. Qed.

(** C6, amended: [setup] on a freshly configured module takes the key
    material of both environment tags from a single source: the explicit
    config strings if either of them is present; otherwise the key files if
    a key path is configured; otherwise the environment variables.  Each tag
    gets the key that this one source has for it, and none if it has none:
    a source of lower precedence is not consulted for that tag. *)
Theorem setup_takes_one_source_for_both_tags :
  forall (h : host) (configIn : option (gmap string string)) (t : environment_tag),
    let m := readConfig configIn reset in
    publicKeyMap (setup h m (fun m' => m')) !! tag_name t
      = supplied_by (chosen_source m) h m t.
Proof.
  intros h configIn t m.
  rewrite setup_publicKeyMap by apply readConfig_keyPathMap.
  destruct (supplied_by _ _ _ _); [reflexivity|].
  unfold m. rewrite readConfig_publicKeyMap. apply lookup_empty.
Qed.

(** ** Trimming of key material *)

Lemma string_rev_onto_app s t acc :
  string_rev_onto (s ++ t) acc = string_rev_onto t (string_rev_onto s acc).
Proof.
  revert acc. induction s as [|c s IH]; intros acc; simpl; [reflexivity | apply IH].
Qed.

Lemma string_rev_onto_twice s a b :
  string_rev_onto (string_rev_onto s a) b = string_rev_onto a (s ++ b).
Proof.
  revert a b. induction s as [|c s IH]; intros a b; simpl; [reflexivity|].
  rewrite IH. reflexivity.
Qed.

(** Removal of a trailing run, read from the right end of the string. *)
Lemma strip_trailing_snoc p s c :
  strip_trailing p (s ++ String c "") =
    if p c then strip_trailing p s else s ++ String c "".
Proof.
  unfold strip_trailing. rewrite string_rev_onto_app. simpl.
  destruct (p c); [reflexivity|].
  apply (string_rev_onto_twice s "" (String c "")).
Qed.

Lemma last_char_snoc s c :
  last_char s = Some c -> exists u, s = u ++ String c "".
Proof.
  induction s as [|c0 s IH]; simpl; [discriminate|].
  destruct s as [|c1 s'].
  - intros [= ->]. exists "". reflexivity.
  - intros H. destruct (IH H) as [u Hu]. exists (String c0 u).
    rewrite Hu. reflexivity.
Qed.

Lemma whitespace_is_not_letter_s c : is_whitespace c = true -> is_letter_s c = false.
Proof.
  unfold is_letter_s. destruct (Ascii.eqb_spec c "s"%char) as [-> | _];
    [discriminate | reflexivity].
Qed.

(** C10: key material read from a key file is stored without its trailing
    run of whitespace (pattern [\s+$]), whereas key material taken from a
    GOOGLE_IAB_PUBLICKEY_* environment variable is stored without its
    trailing run of the letter s (pattern [s+$]): an environment value that
    ends in a whitespace character is stored as it is. *)
Theorem key_material_trimming :
  forall (h : host) (m : module_state) (t : environment_tag),
    (forall path content,
        chosen_source m = KeyFiles ->
        (exists ps pl, keyPathMap m = [("sandbox", ps); ("live", pl)]) ->
        keyPath_get (tag_name t) (keyPathMap m) = Some path ->
        files h !! path = Some content ->
        publicKeyMap (setup h m (fun m' => m')) !! tag_name t
          = Some (strip_trailing is_whitespace content)) /\
    (forall value,
        chosen_source m = EnvironmentVariables ->
        process_env h !! variable_name t = Some value -> value <> "" ->
        publicKeyMap (setup h m (fun m' => m')) !! tag_name t
          = Some (strip_trailing is_letter_s value)) /\
    (forall s c,
        strip_trailing is_whitespace (s ++ String c "")
          = if is_whitespace c then strip_trailing is_whitespace s
            else s ++ String c "") /\
    (forall s c,
        strip_trailing is_letter_s (s ++ String c "")
          = if Ascii.eqb c "s" then strip_trailing is_letter_s s
            else s ++ String c "") /\
    (forall value c,
        last_char value = Some c -> is_whitespace c = true ->
        strip_trailing is_letter_s value = value).
Proof.
  intros h m t. repeat split.
  - intros path content Hsrc Hshape Hpath Hfile.
    rewrite setup_publicKeyMap by (intros _; exact Hshape).
    rewrite Hsrc. cbn [supplied_by]. unfold key_file.
    rewrite Hpath, Hfile. reflexivity.
  - intros value Hsrc Hvalue Hne.
    rewrite setup_publicKeyMap by (rewrite Hsrc; discriminate).
    rewrite Hsrc. cbn [supplied_by]. unfold environment_variable.
    rewrite Hvalue. cbn [present option_map].
    destruct (String.eqb_spec value ""); [contradiction | reflexivity].
  - intros s c. apply strip_trailing_snoc.
  - intros s c. rewrite strip_trailing_snoc. reflexivity.
  - intros value c Hlast Hws.
    destruct (last_char_snoc _ _ Hlast) as [u ->].
    rewrite strip_trailing_snoc, (whitespace_is_not_letter_s _ Hws). reflexivity.
Qed.

(** A key file ending in a line feed loses it; an environment value ending
    in a line feed keeps it, and one ending in ss loses both letters. *)
Lemma key_material_trimming_witness :
  let from_files := readConfig (Some Scenarios.path_only) reset in
  publicKeyMap (setup Scenarios.full_host from_files (fun m => m)) !! "live"
    = Some "FILELIVE" /\
  publicKeyMap (setup Scenarios.environment_host reset (fun m => m)) !! "live"
    = Some ("ENVLIVE" ++ nl) /\
  publicKeyMap (setup Scenarios.environment_host reset (fun m => m)) !! "sandbox"
    = Some "ENVKEY".
Proof.
  split; [| split].
  - apply (proj1 (key_material_trimming Scenarios.full_host
                    (readConfig (Some Scenarios.path_only) reset) live)
             "keys/iap-live" ("FILELIVE" ++ nl)).
    + vm_compute; reflexivity.
    + eexists _, _. vm_compute; reflexivity.
    + vm_compute; reflexivity.
    + vm_compute; reflexivity.
  - apply (proj1 (proj2 (key_material_trimming Scenarios.environment_host reset live))
             ("ENVLIVE" ++ nl)).
    + vm_compute; reflexivity.
    + vm_compute; reflexivity.
    + discriminate.
  - apply (proj1 (proj2 (key_material_trimming Scenarios.environment_host reset sandbox))
             "ENVKEYss").
    + vm_compute; reflexivity.
    + vm_compute; reflexivity.
    + discriminate.
Defined.

(** ** Canonicalization of receipt data *)

Import Canonical.

Lemma object_has_canonical_text data :
  typeof data = "object" -> truthy data = true ->
  exists text, canonical_data data = Some text /\ truthy (JStr text) = true.
Proof.
  unfold canonical_data.
  destruct data; try discriminate; intros _ _; simpl; eauto.
Qed.

(** After the structural checks nothing writes to the caller's objects:
    every run ends with the heap that canonicalization left. *)
Lemma validatePurchase_final_heap e dPubkey receipt options w data signature w1 :
  typeof (deref w receipt) = "object" ->
  get_prop (deref w receipt) "data" = Some data -> truthy data = true ->
  get_prop (deref w receipt) "signature" = Some signature ->
  truthy signature = true ->
  canonicalize_receipt receipt data w = Some w1 ->
  heap (final_world (snd (run e (validatePurchase dPubkey receipt options w report) [])))
    = heap w1.
Proof.
  intros Hty Hdata Tdata Hsig Tsig Hcanon.
  apply (run_along (fun _ _ o => heap (final_world o) = heap w1) 0 0);
    [| reflexivity | reflexivity].
  unfold validatePurchase.
  rewrite Hty. cbn [String.eqb Ascii.eqb Bool.eqb negb].
  rewrite Hdata. cbn [or_throw]. rewrite Hsig. cbn [or_throw].
  rewrite Tdata, Tsig. cbn [negb orb]. rewrite Hcanon. cbn [or_throw].
  cbv beta iota zeta delta [or_throw report].
  walk_with ltac:(first
    [ apply along_Done; reflexivity
    | apply along_validatePublicKey; [intros; reflexivity | intros]
    | apply along_checkPurchaseStatus;
      [ intros; cbn [final_world]; assumption
      | intros; apply along_Done; cbn [final_world]; assumption ] ]).
Qed.

(** C8 as stated fails: two objects with the same properties in a
    different key order get different canonical strings, and the two
    validation calls leave different strings in the receipts. *)
Lemma key_order_changes_canonical_string :
  same_content_modulo_key_order Scenarios.payload Scenarios.payload_reordered /\
  canonical_data Scenarios.payload <> canonical_data Scenarios.payload_reordered /\
  let e := Scenarios.healthy ["LIVEKEY"] in
  let w := Scenarios.world_of Scenarios.live_only in
  let w' := {| vars := vars w;
               heap := {[ 1%positive := JObj [("data", Scenarios.payload_reordered);
                                              ("signature", JStr "c2lnbmVk")] ]} |} in
  get_prop (deref (final_world (snd (run e (validatePurchase None 1%positive JUndefined w report) [])))
                  1%positive) "data"
  <> get_prop (deref (final_world (snd (run e (validatePurchase None 1%positive JUndefined w' report) [])))
                     1%positive) "data".
Proof.
  split; [| split].
  - eexists _, _. split; [reflexivity | split; [reflexivity |]].
    split; [| split].
    + apply (bool_decide_unpack _). vm_compute. reflexivity.
    + apply (bool_decide_unpack _). vm_compute. reflexivity.
    + intros k. cbn [assoc_get].
      repeat match goal with
             | |- context [String.eqb k ?s] => destruct (String.eqb_spec k s); subst
             end; try reflexivity; try discriminate.
  - vm_compute. discriminate.
  - vm_compute. discriminate.
Qed.

Lemma assoc_get_set_same k x ps : assoc_get k (assoc_set k x ps) = Some x.
Proof.
  induction ps as [|[k0 y] ps IH]; simpl.
  - rewrite String.eqb_refl. reflexivity.
  - destruct (String.eqb_spec k k0) as [-> | Hne]; simpl.
    + rewrite String.eqb_refl. reflexivity.
    + destruct (String.eqb_spec k k0); [contradiction | exact IH].
Qed.

Lemma deref_store l v w : deref (store l v w) l = v.
Proof. unfold deref, store. cbn [heap]. rewrite lookup_insert_eq. reflexivity. Qed.

Lemma store_deref l w props :
  deref w l = JObj props -> store l (JObj props) w = w.
Proof.
  unfold deref, store. destruct w as [v hp]. cbn [heap vars].
  destruct (hp !! l) as [x|] eqn:Hl; cbn [default from_option id];
    [intros -> | discriminate].
  f_equal. apply insert_id. exact Hl.
Qed.

(** What canonicalization does to a world whose receipt is an object. *)
Lemma canonicalize_receipt_object receipt w props data :
  deref w receipt = JObj props -> truthy data = true ->
  canonicalize_receipt receipt data w
    = Some (store receipt (JObj (canonical_props props data)) w).
Proof.
  intros Hr Tdata. unfold canonicalize_receipt, canonical_props.
  destruct (String.eqb (typeof data) "object") eqn:Hty.
  - apply String.eqb_eq in Hty.
    destruct (object_has_canonical_text data Hty Tdata) as (text & -> & _).
    rewrite Hr. reflexivity.
  - rewrite (store_deref _ _ _ Hr). reflexivity.
Qed.

(** The receipt that the caller holds after a validation that passed the
    structural checks, however the validation ended. *)
Lemma receipt_after_validation e dPubkey receipt options w props data signature :
  deref w receipt = JObj props ->
  assoc_get "data" props = Some data -> truthy data = true ->
  assoc_get "signature" props = Some signature -> truthy signature = true ->
  deref (final_world (snd (run e (validatePurchase dPubkey receipt options w report) [])))
        receipt
    = JObj (canonical_props props data).
Proof.
  intros Hr Hdata Tdata Hsig Tsig.
  unfold deref at 1.
  erewrite validatePurchase_final_heap;
    [ | rewrite Hr; reflexivity
      | rewrite Hr; cbn [get_prop]; rewrite Hdata; reflexivity
      | exact Tdata
      | rewrite Hr; cbn [get_prop]; rewrite Hsig; reflexivity
      | exact Tsig
      | apply canonicalize_receipt_object; eassumption ].
  cbn [store heap]. rewrite lookup_insert_eq. reflexivity.
Qed.

(** The properties of a canonicalized receipt are canonical already. *)
Lemma canonical_props_fixed props data :
  assoc_get "data" props = Some data -> truthy data = true ->
  exists data',
    assoc_get "data" (canonical_props props data) = Some data' /\
    truthy data' = true /\
    assoc_get "signature" (canonical_props props data) = assoc_get "signature" props /\
    canonical_props (canonical_props props data) data' = canonical_props props data.
Proof.
  intros Hdata Tdata.
  destruct (String.eqb (typeof data) "object") eqn:Hty.
  - pose proof Hty as Hobj. apply String.eqb_eq in Hobj.
    destruct (object_has_canonical_text data Hobj Tdata) as (text & Htext & Ttext).
    assert (Hprops : canonical_props props data = assoc_set "data" (JStr text) props)
      by (unfold canonical_props; rewrite Hty, Htext; reflexivity).
    exists (JStr text). rewrite Hprops, assoc_get_set_same.
    rewrite assoc_get_set_other by discriminate. auto.
  - assert (Hprops : canonical_props props data = props)
      by (unfold canonical_props; rewrite Hty; reflexivity).
    exists data. rewrite Hprops. unfold canonical_props. rewrite Hty. auto.
Qed.

(** C8, amended: the canonical string that a validation call leaves in a
    receipt whose data is an object is [JSON.stringify] of that object with
    every slash escaped: it depends on the data alone, keys in their order,
    and on nothing else (module state, key override, options, answers from
    outside).  On data that is already a string canonicalization is the
    identity, and a second validation call on the same receipt changes
    nothing in it. *)
Theorem canonicalization_is_a_function_of_the_data :
  forall (e : environment) (dPubkey : option string) (receipt : loc)
         (options : jsval) (w : world) (props : list (string * jsval))
         (data signature : jsval),
    deref w receipt = JObj props ->
    assoc_get "data" props = Some data -> truthy data = true ->
    assoc_get "signature" props = Some signature -> truthy signature = true ->
    let final := final_world (snd (run e (validatePurchase dPubkey receipt options w report) [])) in
    (typeof data = "object" ->
     exists text,
       JSON_stringify data = Some text /\
       get_prop (deref final receipt) "data" = Some (JStr (escape_slashes text))) /\
    (forall text,
        data = JStr text ->
        canonicalize_receipt receipt data w = Some w /\
        deref final receipt = JObj props) /\
    (forall e' dPubkey' options',
        deref (final_world
                 (snd (run e' (validatePurchase dPubkey' receipt options' final report) [])))
              receipt
          = deref final receipt).
Proof.
  intros e dPubkey receipt options w props data signature
         Hr Hdata Tdata Hsig Tsig final.
  assert (Hafter : deref final receipt = JObj (canonical_props props data))
    by (eapply receipt_after_validation; eassumption).
  split; [| split].
  - intros Hty. rewrite Hafter. unfold canonical_props, canonical_data.
    rewrite Hty. cbn [String.eqb Ascii.eqb Bool.eqb].
    destruct data; try discriminate; cbn [JSON_stringify option_map];
      eexists; (split; [reflexivity |]);
      cbn [get_prop]; rewrite assoc_get_set_same; reflexivity.
  - intros text ->. split.
    + reflexivity.
    + rewrite Hafter. reflexivity.
  - intros e' dPubkey' options'.
    destruct (canonical_props_fixed props data Hdata Tdata)
      as (data' & Hdata' & Tdata' & Hsig' & Hfix).
    rewrite Hsig in Hsig'.
    rewrite (receipt_after_validation e' dPubkey' receipt options' final
               (canonical_props props data) data' signature Hafter Hdata' Tdata'
               Hsig' Tsig).
    rewrite Hfix, Hafter. reflexivity.
Qed.

(** The caller's receipt after a first validation, and after a second one
    on the same receipt. *)
Lemma canonicalization_is_a_function_of_the_data_witness :
  let e := Scenarios.healthy ["LIVEKEY"] in
  let w := Scenarios.world_of Scenarios.live_only in
  let final :=
    final_world (snd (run e (validatePurchase None 1%positive JUndefined w report) [])) in
  (exists text,
      JSON_stringify Scenarios.payload = Some text /\
      get_prop (deref final 1%positive) "data" = Some (JStr (escape_slashes text))) /\
  deref (final_world
           (snd (run e (validatePurchase None 1%positive JUndefined final report) [])))
        1%positive
    = deref final 1%positive.
Proof.
  intros e w final.
  destruct (canonicalization_is_a_function_of_the_data
              e None 1%positive JUndefined w
              [("data", Scenarios.payload); ("signature", JStr "c2lnbmVk")]
              Scenarios.payload (JStr "c2lnbmVk"))
    as (Hobject & _ & Hagain).
  - vm_compute; reflexivity.
  - reflexivity.
  - reflexivity.
  - reflexivity.
  - reflexivity.
  - split; [apply Hobject; reflexivity | apply Hagain].
Defined.

(** ** The receipt argument is written to *)

(** C9 as stated fails: a receipt whose data is an object and whose
    signature is missing is rejected before canonicalization, and the
    caller's object still has the object as its data. *)
Lemma unsigned_receipt_is_not_overwritten :
  let w := {| vars := vars (Scenarios.world_of Scenarios.live_only);
              heap := {[ 1%positive := Scenarios.receipt_unsigned ]} |} in
  let r := run (Scenarios.healthy ["LIVEKEY"])
               (validatePurchase None 1%positive JUndefined w report) [] in
  get_prop (deref w 1%positive) "data" = Some Scenarios.payload /\
  typeof Scenarios.payload = "object" /\
  fst r = [] /\
  (exists error, snd r = Called w error (failure_envelope (JStr "Malformed receipt"))) /\
  get_prop (deref (final_world (snd r)) 1%positive) "data" = Some Scenarios.payload.
Proof.
  vm_compute. repeat split. eexists. reflexivity.
Qed.

(** C9, amended: for every receipt whose data is an object and whose
    signature is present, validatePurchase overwrites the data property of
    the caller's receipt object with the canonical string; verification
    starts in the world in which the receipt is overwritten, and, however
    the call ends, the caller then holds the overwritten receipt. *)
Theorem receipt_data_overwritten_in_place :
  forall (e : environment) (dPubkey : option string) (receipt : loc)
         (options : jsval) (w : world) (props : list (string * jsval))
         (data signature : jsval),
    deref w receipt = JObj props ->
    assoc_get "data" props = Some data ->
    typeof data = "object" -> truthy data = true ->
    assoc_get "signature" props = Some signature -> truthy signature = true ->
    exists text,
      canonical_data data = Some text /\
      let overwritten := JObj (assoc_set "data" (JStr text) props) in
      let first_key :=
        if present dPubkey then dPubkey else publicKeyMap (vars w) !! "live" in
      (exists k,
          validatePurchase dPubkey receipt options w report
            = validatePublicKey receipt (getPublicKey first_key)
                                (store receipt overwritten w) k) /\
      deref (final_world
               (snd (run e (validatePurchase dPubkey receipt options w report) [])))
            receipt
        = overwritten.
Proof.
  intros e dPubkey receipt options w props data signature
         Hr Hdata Hty Tdata Hsig Tsig.
  destruct (object_has_canonical_text data Hty Tdata) as (text & Htext & _).
  assert (Hprops : canonical_props props data = assoc_set "data" (JStr text) props)
    by (unfold canonical_props; rewrite Hty, Htext; reflexivity).
  exists text. split; [exact Htext |]. split.
  - unfold validatePurchase.
    rewrite Hr. cbn [typeof String.eqb Ascii.eqb Bool.eqb negb get_prop].
    rewrite Hdata, Hsig. cbn [default from_option id or_throw].
    rewrite Tdata, Tsig. cbn [negb orb].
    rewrite (canonicalize_receipt_object _ _ _ _ Hr Tdata), Hprops.
    cbn [or_throw]. eexists. reflexivity.
  - rewrite <- Hprops. eapply receipt_after_validation; eassumption.
Qed.

Lemma receipt_data_overwritten_in_place_witness :
  exists text,
    canonical_data Scenarios.payload = Some text /\
    deref (final_world
             (snd (run (Scenarios.healthy ["LIVEKEY"])
                       (validatePurchase None 1%positive JUndefined
                          (Scenarios.world_of Scenarios.live_only) report) [])))
          1%positive
      = JObj [("data", JStr text); ("signature", JStr "c2lnbmVk")].
Proof.
  destruct (receipt_data_overwritten_in_place
              (Scenarios.healthy ["LIVEKEY"]) None 1%positive JUndefined
              (Scenarios.world_of Scenarios.live_only)
              [("data", Scenarios.payload); ("signature", JStr "c2lnbmVk")]
              Scenarios.payload (JStr "c2lnbmVk"))
    as (text & Htext & _ & Hafter).
  - vm_compute; reflexivity.
  - reflexivity.
  - reflexivity.
  - reflexivity.
  - reflexivity.
  - reflexivity.
  - exists text. split; [exact Htext | exact Hafter].
Defined.

(** ** The steps of the reconciler, one by one *)

(** After a lookup that succeeded, [validate] goes on to the next step
    with [state] still at SUCCESS ... *)
Lemma validate_keeps_state cb c next :
  state c = Some SUCCESS ->
  validate cb c next = next c JNull (VALIDATION FAILURE).
Proof. intros H. unfold validate. rewrite H. reflexivity. Qed.

(** ... and with [state] at SUCCESS, [recheck] starts with a lookup. *)
Lemma recheck_looks_up isSubscription url c next :
  state c = Some SUCCESS ->
  exists k, recheck isSubscription url c next = Lookup url (Refresh.bearer (cw c)) k.
Proof.
  intros H. unfold recheck, is_state. rewrite H. eexists. reflexivity.
Qed.

(** So what follows any successful first lookup is a second lookup. *)
Lemma second_lookup_after_successful_first isSubscription url cb c :
  state c = Some SUCCESS ->
  exists k,
    Async.series [validate cb; recheck isSubscription url] (done cb) c
      = Lookup url (Refresh.bearer (cw c)) k.
Proof.
  intros H. cbn [Async.series]. rewrite validate_keeps_state by exact H.
  cbn [truthy]. unfold recheck, is_state. rewrite H. eexists. reflexivity.
Qed.

(** A refresh that fails with a transport error, or with a body whose
    [error] property is not null, ends the reconciliation in the caller's
    callback: [validate] does not go on to [recheck]. *)
Lemma validate_reports_refresh_failure e cb c next past reported message more :
  state c = Some FAILURE ->
  let answer := token_endpoint e past (Refresh.refresh_form (cw c)) in
  Refresh.failure e (fst answer) (snd answer) reported message more ->
  run e (validate cb c next) past
    = run e (cb (cw c) reported (failure_envelope message))
          (past ++ EvRefresh (Refresh.refresh_form (cw c)) (fst answer) (snd answer)
                :: more).
Proof.
  intros Hstate answer Hfail. unfold validate. rewrite Hstate.
  unfold refreshGoogleTokens. cbn [run]. fold (Refresh.refresh_form (cw c)).
  fold answer.
  destruct Hfail as [message Terr Hmsg | parsedBody body_error nested Terr Hparse Hin Hbe Hnested].
  - rewrite Terr, Hmsg. cbn [or_throw]. reflexivity.
  - rewrite Terr. cbn [run]. rewrite Hparse, Hin. cbn [or_throw].
    rewrite Hbe. cbn [or_throw]. rewrite Hnested. cbn [or_throw].
    rewrite <- List.app_assoc. reflexivity.
Qed.

(** ** Keys consulted when the first verification succeeds *)

Lemma keys_consulted_app tr1 tr2 :
  keys_consulted (tr1 ++ tr2) = (keys_consulted tr1 ++ keys_consulted tr2)%list.
Proof. unfold keys_consulted. apply List.flat_map_app. Qed.

Lemma run_verifies_nothing p :
  verifies_nothing p ->
  forall e past, keys_consulted (fst (run e p past)) = keys_consulted past.
Proof.
  induction 1 as [o | t k _ IH | u a k _ IH | f k _ IH]; intros e past; simpl;
    [reflexivity | rewrite IH, keys_consulted_app, List.app_nil_r; reflexivity ..].
Qed.

Ltac quiet_branch :=
  match goal with
  | |- verifies_nothing (Done _) => apply vn_Done
  | |- verifies_nothing (Lookup _ _ _) => apply vn_Lookup; intros
  | |- verifies_nothing (Refresh _ _) => apply vn_Refresh; intros
  | |- verifies_nothing (Parse _ _) => apply vn_Parse; intros
  | |- verifies_nothing (match ?c with _ => _ end) => destruct c eqn:?
  end.

(** The reconciler never calls the crypto primitive. *)
Lemma checkPurchaseStatus_verifies_nothing data options w :
  verifies_nothing (checkPurchaseStatus data options w report).
Proof.
  cbv beta iota zeta delta
    [checkPurchaseStatus Async.series tasks getSubInfo validate recheck done
     getPurchaseInfo refreshGoogleTokens copy_subscription or_throw report
     with_state with_data with_world is_state state cw Google.data].
  repeat (cbv beta iota; cbn [truthy negb js_and js_or]; quiet_branch).
Qed.

(** When the first attempt verifies the receipt, the key of that attempt is
    the only key the run consults: the sandbox key is not tried. *)
Lemma verified_first_attempt_consults_no_other_key :
  forall (e : environment) (dPubkey : option string) (receipt : loc)
         (options data signature : jsval) (w w1 wa : world)
         (tr1 : list event) (err1 d1 : jsval),
    typeof (deref w receipt) = "object" ->
    get_prop (deref w receipt) "data" = Some data -> truthy data = true ->
    get_prop (deref w receipt) "signature" = Some signature ->
    truthy signature = true ->
    canonicalize_receipt receipt data w = Some w1 ->
    let first_key :=
      if present dPubkey then dPubkey else publicKeyMap (vars w1) !! "live" in
    run e (validatePublicKey receipt (getPublicKey first_key) w1 report) []
      = (tr1, Called wa err1 d1) ->
    truthy err1 = false ->
    keys_consulted (fst (run e (validatePurchase dPubkey receipt options w report) []))
      = keys_consulted tr1.
Proof.
  intros e dPubkey receipt options data signature w w1 wa tr1 err1 d1
         Hty Hdata Tdata Hsig Tsig Hcanon first_key Hfirst Terr.
  unfold validatePurchase.
  rewrite Hty. cbn [String.eqb Ascii.eqb Bool.eqb negb].
  rewrite Hdata. cbn [or_throw]. rewrite Hsig. cbn [or_throw].
  rewrite Tdata, Tsig. cbn [negb orb]. rewrite Hcanon. cbn [or_throw].
  fold first_key.
  match goal with
  | |- context [validatePublicKey receipt (getPublicKey first_key) w1 ?k] =>
      destruct (run_validatePublicKey e receipt (getPublicKey first_key) w1 k []
                  tr1 (Called wa err1 d1) Hfirst) as [_ ->]
  end.
  rewrite Terr. apply run_verifies_nothing, checkPurchaseStatus_verifies_nothing.
Qed.

(** * Further properties of the module *)

Import Shape.

(** A property established by [ensures] holds of the run against any
    environment, after any past. *)
Lemma run_ensures (Q : list event -> outcome -> Prop) tr p :
  ensures Q tr p ->
  forall e past,
    exists tr',
      fst (run e p (past ++ tr)) = (past ++ tr')%list /\
      Q tr' (snd (run e p (past ++ tr))).
Proof.
  induction 1 as [tr o HQ | tr pk d s k _ IH | tr t k _ IH
                 | tr u a k _ IH | tr f k _ IH];
    intros e past; cbn [run].
  - exists tr. split; [reflexivity | exact HQ].
  - rewrite <- List.app_assoc. apply IH.
  - rewrite <- List.app_assoc. apply IH.
  - rewrite <- List.app_assoc. apply IH.
  - rewrite <- List.app_assoc. apply IH.
Qed.

Lemma run_ensures_after (Q : list event -> outcome -> Prop) p :
  ensures Q [] p ->
  forall e past,
    exists tr,
      fst (run e p past) = (past ++ tr)%list /\ Q tr (snd (run e p past)).
Proof.
  intros H e past. destruct (run_ensures Q [] p H e past) as (tr & Htr & HQ).
  rewrite List.app_nil_r in Htr, HQ. eauto.
Qed.

Lemma run_ensures_from_start (Q : list event -> outcome -> Prop) p :
  ensures Q [] p ->
  forall e, Q (fst (run e p [])) (snd (run e p [])).
Proof.
  intros H e. destruct (run_ensures Q [] p H e []) as (tr' & Htr & HQ).
  cbn [app] in Htr, HQ. rewrite Htr. exact HQ.
Qed.

(** ** Receipts that are turned away before verification *)

(** X1: a receipt that is not an object, or that is an object without
    data or without signature, is answered through the callback with an
    Error and the FAILURE envelope 'Malformed receipt', before anything
    outside the module is called and with the world as it was; the one
    value that escapes this is [null], on which validatePurchase raises a
    TypeError without calling back. *)
Theorem malformed_receipt_is_turned_away :
  forall (e : environment) (dPubkey : option string) (receipt : loc)
         (options : jsval) (w : world) (past : list event),
    (deref w receipt = JNull ->
     run e (validatePurchase dPubkey receipt options w report) past
       = (past, Threw w TypeError)) /\
    (malformed (deref w receipt) = true ->
     exists text,
       run e (validatePurchase dPubkey receipt options w report) past
         = (past, Called w (JErr text) (failure_envelope (JStr "Malformed receipt")))).
Proof.
  intros e dPubkey receipt options w past. unfold validatePurchase, malformed, lacks_content.
  split.
  - intros ->. reflexivity.
  - destruct (deref w receipt) as [| |b|n|s|l|props|m];
      cbn [typeof String.eqb Ascii.eqb Bool.eqb negb orb get_prop or_throw];
      cbn [truthy negb orb default from_option id];
      intros H; try discriminate H; try rewrite H; eexists; reflexivity.
Qed.

(** A receipt without a signature, and [null] handed in for a receipt. *)
Lemma malformed_receipt_is_turned_away_witness :
  let e := Scenarios.healthy ["LIVEKEY"] in
  let unsigned := Scenarios.world_holding Scenarios.live_only Scenarios.receipt_unsigned in
  let nothing := Scenarios.world_holding Scenarios.live_only JNull in
  (exists text,
      run e (validatePurchase None 1%positive JUndefined unsigned report) []
        = ([], Called unsigned (JErr text)
                 (failure_envelope (JStr "Malformed receipt")))) /\
  run e (validatePurchase None 1%positive JUndefined nothing report) []
    = ([], Threw nothing TypeError).
Proof.
  intros e unsigned nothing. split.
  - apply (proj2 (malformed_receipt_is_turned_away
                    e None 1%positive JUndefined unsigned [])).
    vm_compute; reflexivity.
  - apply (proj1 (malformed_receipt_is_turned_away
                    e None 1%positive JUndefined nothing [])).
    vm_compute; reflexivity.
Defined.

(** ** Receipts that reach verification *)

Lemma getPublicKey_absent key : present key = false -> getPublicKey key = None.
Proof.
  destruct key as [k|]; [|reflexivity]. cbn [present getPublicKey].
  destruct (String.eqb k ""); [reflexivity | discriminate].
Qed.

Lemma getPublicKey_present key :
  present key = true -> exists pem, getPublicKey key = Some pem.
Proof.
  destruct key as [k|]; [|discriminate]. cbn [present getPublicKey].
  destruct (String.eqb k ""); [discriminate | eauto].
Qed.

(** A receipt with content starts verification, against the dynamic key if
    there is one and else against the live key, in the world where its
    data is canonical. *)
Lemma validatePurchase_starts_verification
    dPubkey receipt options w props data signature cb :
  deref w receipt = JObj props ->
  assoc_get "data" props = Some data -> truthy data = true ->
  assoc_get "signature" props = Some signature -> truthy signature = true ->
  let w1 := store receipt (JObj (canonical_props props data)) w in
  let first_key :=
    if present dPubkey then dPubkey else publicKeyMap (vars w) !! "live" in
  validatePurchase dPubkey receipt options w cb
    = validatePublicKey receipt (getPublicKey first_key) w1 (fun w error data =>
        if truthy error then
          if negb (present (publicKeyMap (vars w) !! "sandbox")) then
            or_throw w (get_prop error "message") (fun message =>
              cb w error (failure_envelope message))
          else
            validatePublicKey receipt
              (getPublicKey (publicKeyMap (vars w) !! "sandbox")) w
              (fun w error2 data =>
                 if truthy error2 then
                   or_throw w (get_prop error "message") (fun message =>
                     cb w error (failure_envelope message))
                 else checkPurchaseStatus data options w cb)
        else checkPurchaseStatus data options w cb).
Proof.
  intros Hr Hdata Tdata Hsig Tsig w1 first_key.
  unfold validatePurchase.
  rewrite Hr. cbn [typeof String.eqb Ascii.eqb Bool.eqb negb get_prop].
  rewrite Hdata, Hsig. cbn [default from_option id or_throw].
  rewrite Tdata, Tsig. cbn [negb orb].
  rewrite (canonicalize_receipt_object _ _ _ _ Hr Tdata). reflexivity.
Qed.

(** What the verifier sees of a receipt with content, once canonical. *)
Lemma canonical_receipt_content receipt w props data signature :
  assoc_get "data" props = Some data -> truthy data = true ->
  assoc_get "signature" props = Some signature ->
  let w1 := store receipt (JObj (canonical_props props data)) w in
  exists data',
    truthy (deref w1 receipt) = true /\
    get_prop (deref w1 receipt) "data" = Some data' /\ truthy data' = true /\
    get_prop (deref w1 receipt) "signature" = Some signature /\
    (data' = data \/ exists text, data' = JStr text /\ typeof data = "object").
Proof.
  intros Hdata Tdata Hsig w1. unfold w1. rewrite deref_store.
  destruct (canonical_props_fixed props data Hdata Tdata)
    as (data' & Hdata' & Tdata' & Hsig' & _).
  exists data'. cbn [truthy get_prop]. rewrite Hdata', Hsig', Hsig.
  repeat split; try assumption.
  unfold canonical_props in Hdata'.
  destruct (String.eqb (typeof data) "object") eqn:Hty.
  - apply String.eqb_eq in Hty.
    destruct (object_has_canonical_text data Hty Tdata) as (text & Htext & _).
    rewrite Htext, assoc_get_set_same in Hdata'. injection Hdata' as <-.
    right. eauto.
  - left. congruence.
Qed.

(** X2: with no dynamic key, no live key and no sandbox key, a receipt
    with content is answered with the error 'missing public key' and a
    FAILURE envelope carrying that message; neither the crypto primitive
    nor an endpoint is called. *)
Theorem no_key_means_missing_public_key :
  forall (e : environment) (dPubkey : option string) (receipt : loc)
         (options : jsval) (w : world) (props : list (string * jsval))
         (data signature : jsval) (past : list event),
    deref w receipt = JObj props ->
    assoc_get "data" props = Some data -> truthy data = true ->
    assoc_get "signature" props = Some signature -> truthy signature = true ->
    present dPubkey = false ->
    present (publicKeyMap (vars w) !! "live") = false ->
    present (publicKeyMap (vars w) !! "sandbox") = false ->
    run e (validatePurchase dPubkey receipt options w report) past
      = (past,
         Called (store receipt (JObj (canonical_props props data)) w)
                (JErr "missing public key")
                (failure_envelope (JStr "missing public key"))).
Proof.
  intros e dPubkey receipt options w props data signature past
         Hr Hdata Tdata Hsig Tsig HdP Hlive Hsandbox.
  rewrite (validatePurchase_starts_verification _ _ _ _ _ _ _ _ Hr Hdata Tdata Hsig Tsig).
  rewrite HdP, (getPublicKey_absent _ Hlive).
  destruct (canonical_receipt_content receipt w props data signature Hdata Tdata Hsig)
    as (data' & Tr & Hdata' & Tdata' & _).
  unfold validatePublicKey. rewrite Tr, Hdata'. cbn [negb or_throw].
  rewrite Tdata'. cbn [negb new_Error to_string truthy store vars].
  rewrite Hsandbox. reflexivity.
Qed.

(** Nothing configured and no key in the environment. *)
Lemma no_key_means_missing_public_key_witness :
  let w := Scenarios.world_holding Scenarios.nothing_configured Scenarios.receipt_object in
  run (Scenarios.healthy ["LIVEKEY"])
      (validatePurchase None 1%positive JUndefined w report) []
    = ([], Called (Scenarios.verification_world Scenarios.nothing_configured)
                  (JErr "missing public key")
                  (failure_envelope (JStr "missing public key"))).
Proof.
  intros w.
  apply (no_key_means_missing_public_key
           (Scenarios.healthy ["LIVEKEY"]) None 1%positive JUndefined w
           [("data", Scenarios.payload); ("signature", JStr "c2lnbmVk")]
           Scenarios.payload (JStr "c2lnbmVk") []);
    vm_compute; reflexivity.
Defined.

(** X3: receipt data that is a number or a boolean is never handed to the
    crypto primitive: with a first key at hand, the receipt is answered
    with the error 'receipt.data must be a string', whether or not a
    sandbox key is configured, and nothing outside the module is called. *)
Theorem scalar_data_is_not_verified :
  forall (e : environment) (dPubkey : option string) (receipt : loc)
         (options : jsval) (w : world) (props : list (string * jsval))
         (data signature : jsval) (past : list event),
    deref w receipt = JObj props ->
    assoc_get "data" props = Some data -> truthy data = true ->
    assoc_get "signature" props = Some signature -> truthy signature = true ->
    scalar data = true ->
    present (if present dPubkey then dPubkey else publicKeyMap (vars w) !! "live")
      = true ->
    run e (validatePurchase dPubkey receipt options w report) past
      = (past,
         Called w (JErr "receipt.data must be a string")
                (failure_envelope (JStr "receipt.data must be a string"))).
Proof.
  intros e dPubkey receipt options w props data signature past
         Hr Hdata Tdata Hsig Tsig Hscalar Hkey.
  rewrite (validatePurchase_starts_verification _ _ _ _ _ _ _ _ Hr Hdata Tdata Hsig Tsig).
  assert (Hprops : canonical_props props data = props)
    by (unfold canonical_props; destruct data; try discriminate; reflexivity).
  rewrite Hprops, (store_deref _ _ _ Hr).
  destruct (getPublicKey_present _ Hkey) as [pem ->].
  assert (Hattempt : forall pkey cb,
             validatePublicKey receipt (Some pkey) w cb
               = cb w (JErr "receipt.data must be a string") JUndefined).
  { intros pkey cb. unfold validatePublicKey. rewrite Hr.
    cbn [truthy negb get_prop]. rewrite Hdata. cbn [default from_option id or_throw].
    rewrite Tdata. cbn [negb]. destruct data; try discriminate; reflexivity. }
  rewrite Hattempt. cbn [truthy get_prop String.eqb Ascii.eqb Bool.eqb or_throw].
  destruct (present (publicKeyMap (vars w) !! "sandbox")) eqn:Hsandbox; cbn [negb].
  - destruct (getPublicKey_present _ Hsandbox) as [pem2 ->].
    rewrite Hattempt. reflexivity.
  - reflexivity.
Qed.

(** A signed receipt whose data is the number 7, with a live key. *)
Lemma scalar_data_is_not_verified_witness :
  let w := Scenarios.world_holding Scenarios.live_and_sandbox Scenarios.receipt_scalar in
  run (Scenarios.healthy ["LIVEKEY"])
      (validatePurchase None 1%positive JUndefined w report) []
    = ([], Called w (JErr "receipt.data must be a string")
                  (failure_envelope (JStr "receipt.data must be a string"))).
Proof.
  intros w.
  apply (scalar_data_is_not_verified
           (Scenarios.healthy ["LIVEKEY"]) None 1%positive JUndefined w
           [("data", JNum 7); ("signature", JStr "c2lnbmVk")]
           (JNum 7) (JStr "c2lnbmVk") []);
    vm_compute; reflexivity.
Defined.

(** X4: the payload of the attempt that verifies is what the reconciler
    gets.  When the first attempt verifies the receipt, the run goes on as
    the reconciler on that payload; when the first attempt fails and the
    attempt against the sandbox key verifies it, the run goes on as the
    reconciler on the payload of the sandbox attempt, and the error of the
    first attempt plays no further part. *)
Theorem verified_payload_goes_to_reconciler :
  forall (e : environment) (dPubkey : option string) (receipt : loc)
         (options : jsval) (w : world) (props : list (string * jsval))
         (data signature : jsval) (tr1 : list event) (wa : world) (err1 d1 : jsval),
    deref w receipt = JObj props ->
    assoc_get "data" props = Some data -> truthy data = true ->
    assoc_get "signature" props = Some signature -> truthy signature = true ->
    let w1 := store receipt (JObj (canonical_props props data)) w in
    let first_key :=
      if present dPubkey then dPubkey else publicKeyMap (vars w) !! "live" in
    let sandbox := publicKeyMap (vars w) !! "sandbox" in
    run e (validatePublicKey receipt (getPublicKey first_key) w1 report) []
      = (tr1, Called wa err1 d1) ->
    (truthy err1 = false ->
     run e (validatePurchase dPubkey receipt options w report) []
       = run e (checkPurchaseStatus d1 options w1 report) tr1) /\
    (truthy err1 = true -> present sandbox = true ->
     forall tr2 wb err2 d2,
       run e (validatePublicKey receipt (getPublicKey sandbox) w1 report) []
         = (tr2, Called wb err2 d2) ->
       truthy err2 = false ->
       run e (validatePurchase dPubkey receipt options w report) []
         = run e (checkPurchaseStatus d2 options w1 report) (tr1 ++ tr2)).
Proof.
  intros e dPubkey receipt options w props data signature tr1 wa err1 d1
         Hr Hdata Tdata Hsig Tsig w1 first_key sandbox Hfirst.
  rewrite (validatePurchase_starts_verification _ _ _ _ _ _ _ _ Hr Hdata Tdata Hsig Tsig).
  fold w1 first_key.
  match goal with
  | |- context [validatePublicKey receipt (getPublicKey first_key) w1 ?k] =>
      destruct (run_validatePublicKey e receipt (getPublicKey first_key) w1 k []
                  tr1 (Called wa err1 d1) Hfirst) as [Hw ->]
  end.
  cbn [final_world] in Hw. subst wa. cbn [app].
  split.
  - intros ->. reflexivity.
  - intros -> Hsandbox tr2 wb err2 d2 Hsecond Terr2.
    change (publicKeyMap (vars w1) !! "sandbox") with sandbox.
    rewrite Hsandbox. cbn [negb].
    match goal with
    | |- context [validatePublicKey receipt (getPublicKey sandbox) w1 ?k] =>
        destruct (run_validatePublicKey e receipt (getPublicKey sandbox) w1 k
                    tr1 tr2 (Called wb err2 d2) Hsecond) as [Hw ->]
    end.
    cbn [final_world] in Hw. subst wb. rewrite Terr2. reflexivity.
Qed.

(** A signature of the live key, and a signature of the sandbox key: in
    both cases the reconciler gets the parsed payload with its status. *)
Lemma verified_payload_goes_to_reconciler_witness :
  let w := Scenarios.world_of Scenarios.live_and_sandbox in
  let w1 := Scenarios.verification_world Scenarios.live_and_sandbox in
  let attempt key answer :=
    EvVerify (Scenarios.pem key) Scenarios.payload_text (JStr "c2lnbmVk") answer in
  let parsed := EvParse Scenarios.payload_text (Some Scenarios.payload) in
  run (Scenarios.healthy ["LIVEKEY"])
      (validatePurchase None 1%positive JUndefined w report) []
    = run (Scenarios.healthy ["LIVEKEY"])
          (checkPurchaseStatus Scenarios.verified_payload JUndefined w1 report)
          [attempt "LIVEKEY" VTrue; parsed] /\
  run (Scenarios.healthy ["SANDBOXKEY"])
      (validatePurchase None 1%positive JUndefined w report) []
    = run (Scenarios.healthy ["SANDBOXKEY"])
          (checkPurchaseStatus Scenarios.verified_payload JUndefined w1 report)
          [attempt "LIVEKEY" VFalse; attempt "SANDBOXKEY" VTrue; parsed].
Proof.
  intros w w1 attempt parsed. split.
  - refine (proj1 (verified_payload_goes_to_reconciler
                     (Scenarios.healthy ["LIVEKEY"]) None 1%positive JUndefined w
                     [("data", Scenarios.payload); ("signature", JStr "c2lnbmVk")]
                     Scenarios.payload (JStr "c2lnbmVk")
                     [attempt "LIVEKEY" VTrue; parsed] w1 JNull Scenarios.verified_payload
                     _ _ _ _ _ _) _);
      vm_compute; reflexivity.
  - refine (proj2 (verified_payload_goes_to_reconciler
                     (Scenarios.healthy ["SANDBOXKEY"]) None 1%positive JUndefined w
                     [("data", Scenarios.payload); ("signature", JStr "c2lnbmVk")]
                     Scenarios.payload (JStr "c2lnbmVk")
                     [attempt "LIVEKEY" VFalse] w1
                     (JErr "failed to validate purchase") JUndefined
                     _ _ _ _ _ _) _ _
                  [attempt "SANDBOXKEY" VTrue; parsed] w1 JNull
                  Scenarios.verified_payload _ _);
      vm_compute; reflexivity.
Defined.

(** ** The keys a validation consults *)

Ltac ebranch :=
  match goal with
  | |- ensures _ _ (Lookup _ _ _) => apply ensures_Lookup; intros
  | |- ensures _ _ (Refresh _ _) => apply ensures_Refresh; intros
  | |- ensures _ _ (Parse _ _) => apply ensures_Parse; intros
  | |- ensures _ _ (Verify _ _ _ _) => apply ensures_Verify; intros
  | |- ensures _ _ (match ?c with _ => _ end) => destruct c eqn:?
  end.

Ltac ewalk_with leaf :=
  repeat (cbv beta iota; cbn [truthy negb js_and js_or app]; first [ebranch | leaf]).

Lemma canonicalize_receipt_vars receipt data w w1 :
  canonicalize_receipt receipt data w = Some w1 -> vars w1 = vars w.
Proof.
  unfold canonicalize_receipt.
  destruct (String.eqb (typeof data) "object"); [| intros [= <-]; reflexivity].
  destruct (canonical_data data); [| discriminate].
  destruct (set_prop (deref w receipt) "data" (JStr s)); [| discriminate].
  intros [= <-]. reflexivity.
Qed.

(** A program that calls the crypto primitive nowhere keeps a property of
    the keys consulted so far. *)
Lemma ensures_keys_quiet (P : list string -> Prop) tr p :
  verifies_nothing p -> P (keys_consulted tr) ->
  ensures (fun tr' _ => P (keys_consulted tr')) tr p.
Proof.
  intros H. revert tr.
  induction H as [o | t k _ IH | u a k _ IH | f k _ IH]; intros tr HP.
  - apply ensures_Done. exact HP.
  - apply ensures_Parse. intros r. apply IH.
    rewrite keys_consulted_app, List.app_nil_r. exact HP.
  - apply ensures_Lookup. intros er bd. apply IH.
    rewrite keys_consulted_app, List.app_nil_r. exact HP.
  - apply ensures_Refresh. intros er bd. apply IH.
    rewrite keys_consulted_app, List.app_nil_r. exact HP.
Qed.

(** An attempt on a receipt with content consults its key if the data is
    a string and there is a key, and nothing otherwise. *)
Lemma ensures_keys_attempt (P : list string -> Prop) tr receipt pkey w cb data' :
  truthy (deref w receipt) = true ->
  get_prop (deref w receipt) "data" = Some data' -> truthy data' = true ->
  let consulted :=
    (keys_consulted tr
     ++ match data' with JStr _ => option_list pkey | _ => [] end)%list in
  P (keys_consulted tr) -> P consulted ->
  (forall tr' error data,
      keys_consulted tr' = consulted ->
      ensures (fun tr'' _ => P (keys_consulted tr'')) tr' (cb w error data)) ->
  ensures (fun tr' _ => P (keys_consulted tr')) tr
          (validatePublicKey receipt pkey w cb).
Proof.
  intros Tr Hdata Tdata consulted HP HP' Hcb.
  unfold validatePublicKey. rewrite Tr, Hdata. cbn [negb or_throw].
  rewrite Tdata. cbn [negb].
  assert (Hkeep : keys_consulted tr = consulted -> forall error data,
             ensures (fun tr'' _ => P (keys_consulted tr'')) tr (cb w error data))
    by (intros Heq error data; apply Hcb; exact Heq).
  destruct pkey as [pem|].
  - destruct data'; unfold consulted in *; cbn [option_list] in *;
      rewrite ?List.app_nil_r in *; try (apply Hkeep; reflexivity).
    assert (K1 : forall signature r,
               keys_consulted (tr ++ [EvVerify pem s signature r])
               = (keys_consulted tr ++ [pem])%list)
      by (intros; rewrite keys_consulted_app; reflexivity).
    assert (K2 : forall signature r parsed,
               keys_consulted ((tr ++ [EvVerify pem s signature r]) ++ [EvParse s parsed])
               = (keys_consulted tr ++ [pem])%list)
      by (intros; rewrite keys_consulted_app, K1; apply List.app_nil_r).
    destruct (get_prop (deref w receipt) "signature") as [signature|] eqn:Hsig;
      cbn [or_throw].
    + apply ensures_Verify. intros r.
      destruct r.
      * apply ensures_Parse. intros parsed.
        destruct parsed as [d|].
        -- destruct (set_prop d "status" (VALIDATION SUCCESS)); cbn [or_throw].
           ++ apply Hcb. apply K2.
           ++ apply ensures_Done. rewrite K2. exact HP'.
        -- apply ensures_Done. rewrite K2. exact HP'.
      * apply Hcb. apply K1.
      * apply Hcb. apply K1.
    + apply ensures_Done. exact HP.
  - unfold consulted in *. destruct data'; cbn [option_list] in *;
      rewrite ?List.app_nil_r in *; apply Hkeep; reflexivity.
Qed.

(** X5: one validation consults at most two keys, and in this order: the
    dynamic key when one is given and the live key otherwise, then the
    sandbox key.  In particular the live key is not consulted when a
    dynamic key is given. *)
Theorem keys_are_consulted_in_order :
  forall (e : environment) (dPubkey : option string) (receipt : loc)
         (options : jsval) (w : world),
    let first_key :=
      if present dPubkey then dPubkey else publicKeyMap (vars w) !! "live" in
    let sandbox := publicKeyMap (vars w) !! "sandbox" in
    keys_consulted (fst (run e (validatePurchase dPubkey receipt options w report) []))
      `prefix_of` (option_list (getPublicKey first_key)
                   ++ option_list (getPublicKey sandbox))%list.
Proof.
  intros e dPubkey receipt options w first_key sandbox.
  set (candidates := (option_list (getPublicKey first_key)
                      ++ option_list (getPublicKey sandbox))%list).
  set (P := fun ks : list string => ks `prefix_of` candidates).
  apply (run_ensures_from_start (fun tr _ => P (keys_consulted tr))).
  assert (Hnil : P []) by apply prefix_nil.
  destruct (deref w receipt) as [| |b|n|s|l|props|m] eqn:Hr;
    try (unfold validatePurchase; rewrite Hr;
         cbn [typeof String.eqb Ascii.eqb Bool.eqb negb orb get_prop or_throw truthy
              default from_option id report];
         apply ensures_Done; exact Hnil).
  destruct (assoc_get "data" props) as [data|] eqn:Hdata;
    [destruct (truthy data) eqn:Tdata |];
    try (unfold validatePurchase; rewrite Hr;
         cbn [typeof String.eqb Ascii.eqb Bool.eqb negb orb get_prop or_throw];
         rewrite Hdata; cbn [default from_option id truthy negb orb]; rewrite ?Tdata;
         cbn [negb orb report]; apply ensures_Done; exact Hnil).
  destruct (assoc_get "signature" props) as [signature|] eqn:Hsig;
    [destruct (truthy signature) eqn:Tsig |];
    try (unfold validatePurchase; rewrite Hr;
         cbn [typeof String.eqb Ascii.eqb Bool.eqb negb orb get_prop or_throw];
         rewrite Hdata, Hsig; cbn [default from_option id truthy negb orb];
         rewrite ?Tdata, ?Tsig;
         cbn [negb orb report]; apply ensures_Done; exact Hnil).
  rewrite (validatePurchase_starts_verification _ _ _ _ _ _ _ _ Hr Hdata Tdata Hsig Tsig).
  destruct (canonical_receipt_content receipt w props data signature Hdata Tdata Hsig)
    as (data' & Tr & Hdata' & Tdata' & _).
  set (w1 := store receipt (JObj (canonical_props props data)) w) in *.
  fold first_key.
  apply (ensures_keys_attempt P [] receipt _ w1 _ data' Tr Hdata' Tdata').
  - exact Hnil.
  - cbn [keys_consulted flat_map app]. unfold P, candidates.
    destruct data'; try exact Hnil. apply prefix_app_r. reflexivity.
  - intros tr' error d Htr'. cbn [keys_consulted flat_map app] in Htr'.
    assert (Hall : P (keys_consulted tr')).
    { rewrite Htr'. unfold P, candidates.
      destruct data'; try exact Hnil. apply prefix_app_r. reflexivity. }
    change (publicKeyMap (vars w1) !! "sandbox") with sandbox.
    destruct (truthy error).
    + destruct (negb (present sandbox)).
      * destruct (get_prop error "message"); cbn [or_throw report];
          apply ensures_Done; exact Hall.
      * apply (ensures_keys_attempt P tr' receipt _ w1 _ data' Tr Hdata' Tdata').
        -- exact Hall.
        -- rewrite Htr'. unfold P, candidates.
           destruct data'; rewrite ?List.app_nil_r; try exact Hnil. reflexivity.
        -- intros tr'' error2 d2 Htr''.
           assert (Hall' : P (keys_consulted tr'')).
           { rewrite Htr'', Htr'. unfold P, candidates.
             destruct data'; rewrite ?List.app_nil_r; try exact Hnil. reflexivity. }
           destruct (truthy error2).
           ++ destruct (get_prop error "message"); cbn [or_throw report];
                apply ensures_Done; exact Hall'.
           ++ apply ensures_keys_quiet;
                [apply checkPurchaseStatus_verifies_nothing | exact Hall'].
    + apply ensures_keys_quiet;
        [apply checkPurchaseStatus_verifies_nothing | exact Hall].
Qed.

(** ** The remote calls of a reconciliation *)

Import Reconciler.

Lemma set_prop_has_properties v k x v' :
  set_prop v k x = Some v' -> forall k', get_prop v' k' = Some (field v' k').
Proof.
  intros H k'. unfold field.
  destruct v; simpl in H; inversion H; subst; reflexivity.
Qed.

Lemma field_set_prop_other v k x v' k' :
  k' <> k -> set_prop v k x = Some v' -> field v' k' = field v k'.
Proof.
  intros Hne H. unfold field. erewrite get_set_prop_other by eassumption. reflexivity.
Qed.

Lemma js_in_has_properties k v b k' : js_in k v = Some b -> get_prop v k' <> None.
Proof. destruct v; discriminate. Qed.

Lemma set_prop_stays_settable v k x v' k' x' :
  set_prop v k x = Some v' -> set_prop v' k' x' <> None.
Proof. destruct v; simpl; intros [= <-]; discriminate. Qed.

(** Paths on which an object would have to be without properties. *)
Ltac infeasible :=
  exfalso;
  match goal with
  | H1 : js_in _ ?v = Some _, H2 : get_prop ?v _ = None |- _ =>
      exact (js_in_has_properties _ _ _ _ H1 H2)
  | H1 : set_prop _ _ _ = Some ?v, H2 : set_prop ?v _ _ = None |- _ =>
      exact (set_prop_stays_settable _ _ _ _ _ _ H1 H2)
  end.

(** With credentials, the reconciler is the sequence of its three steps on
    the payload tagged with the service, at the address of the payload. *)
Lemma checkPurchaseStatus_steps data options w cb data1 :
  set_prop data "service" SERVICES_GOOGLE = Some data1 ->
  checkPurchaseState (vars w) = true ->
  checkPurchaseStatus data options w cb
    = Async.series (tasks (is_subscription options) (url_of data options) cb) (done cb)
        {| cw := w; state := None; Google.data := data1 |}.
Proof.
  intros Hset Hon. unfold checkPurchaseStatus. rewrite Hset. cbn [or_throw].
  rewrite Hon. cbn [negb].
  assert (Hsub : (if truthy options then get_prop options "subscription"
                  else Some JUndefined)
                 = Some (if truthy options then field options "subscription"
                         else JUndefined)).
  { unfold field. destruct (truthy options) eqn:T; [| reflexivity].
    destruct options; try discriminate T; reflexivity. }
  rewrite Hsub. cbn [or_throw].
  rewrite !(set_prop_has_properties _ _ _ _ Hset). cbn [or_throw].
  unfold url_of, is_subscription, js_and.
  rewrite (field_set_prop_other data "service" _ data1 "packageName")
    by (discriminate || exact Hset).
  rewrite (field_set_prop_other data "service" _ data1 "productId")
    by (discriminate || exact Hset).
  rewrite (field_set_prop_other data "service" _ data1 "purchaseToken")
    by (discriminate || exact Hset).
  destruct (truthy options); reflexivity.
Qed.

(** X6: the remote calls of one reconciliation follow one of six
    sequences.  All lookups go to the address built from the payload's
    packageName, productId and purchaseToken, under [subscriptions] when
    [options.subscription] is truthy and under [products] otherwise; the
    first lookup carries the stored access token; a refresh happens only
    after a failed first lookup and sends the stored client id, client
    secret and refresh token; and the lookup after a refresh carries the
    access token that the refresh returned. *)
Theorem reconciliation_follows_a_shape :
  forall (e : environment) (data options : jsval) (w : world) (past : list event),
    exists tr,
      fst (run e (checkPurchaseStatus data options w report) past) = (past ++ tr)%list /\
      trace_shape w (url_of data options) tr.
Proof.
  intros e data options w past.
  apply (run_ensures_after (fun tr _ => trace_shape w (url_of data options) tr)).
  destruct (set_prop data "service" SERVICES_GOOGLE) as [data1|] eqn:Hset.
  - destruct (checkPurchaseState (vars w)) eqn:Hon.
    + rewrite (checkPurchaseStatus_steps _ _ _ _ _ Hset Hon).
      generalize (url_of data options) (is_subscription options). intros url isSubscription.
      cbv beta iota zeta delta
        [Async.series tasks getSubInfo validate recheck done
         getPurchaseInfo refreshGoogleTokens copy_subscription or_throw report
         with_state with_data with_world is_state state cw Google.data].
      ewalk_with ltac:(first
        [ apply ensures_Done;
          first [ apply shape_none
                | eapply shape_lookup; eauto; fail
                | eapply shape_lookup_twice; eauto; fail
                | eapply shape_refresh; unfold lookup_failed; eauto; fail
                | eapply shape_refresh_refused; unfold lookup_failed; eauto 6; fail
                | eapply shape_recheck; unfold lookup_failed; eauto; fail
                | infeasible ] ]).
    + unfold checkPurchaseStatus. rewrite Hset. cbn [or_throw]. rewrite Hon.
      apply ensures_Done, shape_none.
  - unfold checkPurchaseStatus. rewrite Hset. apply ensures_Done, shape_none.
Qed.

(** ** What a validation leaves of the module variables *)

(** The reconciler ends in the world it started in, or, after a refresh,
    in that world with a new access token. *)
Lemma along_checkPurchaseStatus_world Q a b data options w cb :
  (forall a' b' w' x,
      w' = w \/ (exists token, w' = set_accessToken token w /\ b' = S b) ->
      Q a' b' (Threw w' x)) ->
  (forall a' b' w' error result,
      w' = w \/ (exists token, w' = set_accessToken token w /\ b' = S b) ->
      along Q a' b' (cb w' error result)) ->
  along Q a b (checkPurchaseStatus data options w cb).
Proof.
  intros HT Hcb.
  cbv beta iota zeta delta
    [checkPurchaseStatus Async.series tasks getSubInfo validate recheck done
     getPurchaseInfo refreshGoogleTokens copy_subscription or_throw
     with_state with_data with_world is_state state cw Google.data].
  walk_with ltac:(first
    [ apply Hcb; first [ left; reflexivity
                       | right; eexists; split; reflexivity ]
    | apply along_Done, HT; first [ left; reflexivity
                                  | right; eexists; split; reflexivity ] ]).
Qed.

Lemma same_but_accessToken_refl m : same_but_accessToken m m.
Proof. repeat split. Qed.

Lemma same_but_accessToken_set token w w1 :
  vars w1 = vars w ->
  same_but_accessToken (vars (set_accessToken token w1)) (vars w).
Proof. intros H. unfold set_accessToken. cbn. rewrite H. repeat split. Qed.

(** X7: a validation changes none of the module variables except,
    possibly, the access token: configuration, key paths, keys, the other
    three credentials and [checkPurchaseState] are after the call what they
    were before it, however the call ends; and when no refresh was made the
    access token is unchanged too. *)
Theorem validation_changes_the_access_token_only :
  forall (e : environment) (dPubkey : option string) (receipt : loc)
         (options : jsval) (w : world),
    let r := run e (validatePurchase dPubkey receipt options w report) [] in
    same_but_accessToken (vars (final_world (snd r))) (vars w) /\
    (count is_refresh (fst r) = 0%nat -> vars (final_world (snd r)) = vars w).
Proof.
  intros e dPubkey receipt options w r.
  apply (run_along
           (fun _ b o => same_but_accessToken (vars (final_world o)) (vars w) /\
                         (b = 0%nat -> vars (final_world o) = vars w))
           0 0 _); [| reflexivity | reflexivity].
  assert (Hsame : forall b, same_but_accessToken (vars w) (vars w) /\
                            (b = 0%nat -> vars w = vars w))
    by (intros; split; [apply same_but_accessToken_refl | reflexivity]).
  cbv beta iota zeta delta [validatePurchase or_throw report].
  walk_with ltac:(first
    [ apply along_Done; cbn [final_world]; apply Hsame
    | match goal with
      | H : canonicalize_receipt _ _ _ = Some ?w1 |- _ =>
          pose proof (canonicalize_receipt_vars _ _ _ _ H) as Hvars; clear H;
          assert (Hsame1 : forall b, same_but_accessToken (vars w1) (vars w) /\
                                     (b = 0%nat -> vars w1 = vars w))
            by (intros; rewrite Hvars; apply Hsame)
      end
    | apply along_Done; cbn [final_world]; apply Hsame1
    | apply along_validatePublicKey; [intros; cbn [final_world]; apply Hsame1 | intros]
    | apply along_checkPurchaseStatus_world;
      [ intros a' b' w' x [-> | (token & -> & ->)]; cbn [final_world];
        [ apply Hsame1
        | split; [apply same_but_accessToken_set; exact Hvars | intros Hb; discriminate Hb] ]
      | intros a' b' w' ? ? [-> | (token & -> & ->)];
        apply along_Done; cbn [final_world];
        [ apply Hsame1
        | split; [apply same_but_accessToken_set; exact Hvars | intros Hb; discriminate Hb] ] ] ]).
Qed.

(** A validation that needs no refresh leaves the stale token in place. *)
Lemma validation_changes_the_access_token_only_witness :
  let w := Scenarios.world_of Scenarios.live_and_credentials in
  vars (final_world
          (snd (run (Scenarios.healthy ["LIVEKEY"])
                    (validatePurchase None 1%positive JUndefined w report) [])))
    = vars w.
Proof.
  intros w.
  apply (proj2 (validation_changes_the_access_token_only
                  (Scenarios.healthy ["LIVEKEY"]) None 1%positive JUndefined w)).
  vm_compute; reflexivity.
Defined.

(** ** What the callback of a reconciliation receives *)

Lemma truthy_new_Error v : truthy (new_Error v) = true.
Proof. destruct v; reflexivity. Qed.

(** The property [k] of [v'] goes back, through the assignments that made
    [v'], to the same property of the value they started from. *)
Ltac unwind_assignments k :=
  repeat match goal with
         | H : set_prop ?v ?k' ?x = Some ?v' |- get_prop ?v' k = _ =>
             rewrite (get_set_prop_other v k k' x v' ltac:(assumption) H)
         end.

Lemma set_prop_keeps_truthiness v k x v' :
  set_prop v k x = Some v' -> truthy v' = truthy v.
Proof. destruct v; simpl; intros [= <-]; reflexivity. Qed.

Ltac unwind_truthiness :=
  repeat match goal with
         | H : set_prop ?v ?k' ?x = Some ?v' |- truthy ?v' = _ =>
             rewrite (set_prop_keeps_truthiness v k' x v' H)
         end.

(** Every path of a reconciliation keeps the contract of its result. *)
Lemma checkPurchaseStatus_result_contract data options w :
  ensures (fun _ o => result_contract data options o) []
          (checkPurchaseStatus data options w report).
Proof.
  destruct (set_prop data "service" SERVICES_GOOGLE) as [data1|] eqn:Hset.
  - assert (Hplain : result_contract data options (Called w JNull data1)).
    { cbn [result_contract truthy]. split; [reflexivity | split; [| split]].
      - eapply set_prop_keeps_truthiness; eassumption.
      - intros k Hk _ _. eapply get_set_prop_other; eassumption.
      - intros _. exact Hset. }
    destruct (checkPurchaseState (vars w)) eqn:Hon.
    + rewrite (checkPurchaseStatus_steps _ _ _ _ _ Hset Hon).
      generalize (url_of data options). intros url.
      cbv beta iota zeta delta
        [Async.series tasks getSubInfo validate recheck done
         getPurchaseInfo refreshGoogleTokens copy_subscription or_throw report
         with_state with_data with_world is_state state cw Google.data].
      ewalk_with ltac:(first
        [ apply ensures_Done; cbn [result_contract]; rewrite ?truthy_new_Error;
          repeat match goal with
                 | H : truthy ?x = _ |- context [truthy ?x] => rewrite H
                 end;
          cbn [truthy];
          first
            [ exact I
            | eexists; reflexivity
            | split; [reflexivity | split; [| split]];
              [ unwind_truthiness; reflexivity
              | intros k Hk1 Hk2 Hk3; unwind_assignments k; reflexivity
              | intros Hsub; first [ congruence | exact Hset ] ]
            | infeasible ] ]).
    + unfold checkPurchaseStatus. rewrite Hset. cbn [or_throw]. rewrite Hon.
      apply ensures_Done. exact Hplain.
  - unfold checkPurchaseStatus. rewrite Hset. apply ensures_Done. exact I.
Qed.

(** X8: a reconciliation calls back with a truthy error and a FAILURE
    envelope, or with a null error and the payload; it never returns
    without calling back unless an exception escapes.  In the payload
    handed back only the properties service, autoRenewing and
    expirationTime can differ from the verified payload, and for a purchase
    that is not a subscription the payload handed back is the verified one
    with its service set, whatever the endpoint answered. *)
Theorem reconciliation_keeps_the_result_contract :
  forall (e : environment) (data options : jsval) (w : world) (past : list event),
    result_contract data options
      (snd (run e (checkPurchaseStatus data options w report) past)).
Proof.
  intros e data options w past.
  destruct (run_ensures_after _ _ (checkPurchaseStatus_result_contract data options w)
                              e past) as (tr & _ & H).
  exact H.
Qed.

Lemma recheck_error_is_truthy error x :
  truthy (if truthy error then error else new_Error x) = true.
Proof. destruct (truthy error) eqn:H; [exact H | apply truthy_new_Error]. Qed.

Lemma subscription_fields_assigned ps a x :
  let result := JObj (assoc_set "expirationTime" x (assoc_set "autoRenewing" a ps)) in
  get_prop result "autoRenewing" = Some a /\ get_prop result "expirationTime" = Some x.
Proof.
  cbn [get_prop]. rewrite assoc_get_set_same.
  rewrite assoc_get_set_other by discriminate. rewrite assoc_get_set_same.
  split; reflexivity.
Qed.

(** The last event of a trace of at most four events. *)
Ltac split_off_last_lookup :=
  first [ eexists [], _, _, _, _; split; [reflexivity |]
        | eexists [_], _, _, _, _; split; [reflexivity |]
        | eexists [_; _], _, _, _, _; split; [reflexivity |]
        | eexists [_; _; _], _, _, _, _; split; [reflexivity |] ].

(** X9: for a subscription whose payload is an object, a reconciliation
    with credentials that ends without error hands back a payload whose
    autoRenewing and expirationTime are the autoRenewing and
    expiryTimeMillis of the body of the last lookup of the run. *)
Theorem subscription_fields_come_from_the_last_lookup :
  forall (e : environment) (props : list (string * jsval)) (options : jsval)
         (w : world) (past : list event),
    checkPurchaseState (vars w) = true ->
    truthy (is_subscription options) = true ->
    exists tr,
      fst (run e (checkPurchaseStatus (JObj props) options w report) past)
        = (past ++ tr)%list /\
      carries_last_lookup tr
        (snd (run e (checkPurchaseStatus (JObj props) options w report) past)).
Proof.
  intros e props options w past Hon Hsub.
  apply (run_ensures_after carries_last_lookup).
  rewrite (checkPurchaseStatus_steps (JObj props) options w report
             (JObj (assoc_set "service" SERVICES_GOOGLE props)) eq_refl Hon).
  generalize (url_of (JObj props) options). intros url.
  cbv beta iota zeta delta
    [Async.series tasks getSubInfo validate recheck done
     getPurchaseInfo refreshGoogleTokens copy_subscription or_throw report
     with_state with_data with_world is_state state cw Google.data].
  rewrite Hsub.
  ewalk_with ltac:(first
    [ apply ensures_Done; cbn [carries_last_lookup]; rewrite ?truthy_new_Error;
      first
        [ exact I
        | intros Hok; congruence
        | exfalso;
          match goal with
          | H : truthy (if truthy ?x then ?x else new_Error ?y) = false |- _ =>
              rewrite (recheck_error_is_truthy x y) in H; discriminate H
          end
        | intros _;
          repeat match goal with
                 | H : set_prop (JObj _) _ _ = Some _ |- _ =>
                     cbn [set_prop] in H; injection H as <-
                 end;
          split_off_last_lookup;
          split;
          [ etransitivity; [apply subscription_fields_assigned | symmetry; eassumption]
          | etransitivity; [apply subscription_fields_assigned | symmetry; eassumption] ] ] ]).
Qed.

(** A subscription that both lookups find. *)
Lemma subscription_fields_come_from_the_last_lookup_witness :
  let r := run (Scenarios.subscribed [])
               (checkPurchaseStatus (JObj Scenarios.subscription_payload)
                  Scenarios.for_subscription
                  (Scenarios.world_of Scenarios.live_and_credentials) report) [] in
  exists tr, fst r = ([] ++ tr)%list /\ carries_last_lookup tr (snd r).
Proof.
  apply (subscription_fields_come_from_the_last_lookup
           (Scenarios.subscribed []) Scenarios.subscription_payload
           Scenarios.for_subscription
           (Scenarios.world_of Scenarios.live_and_credentials) []);
    vm_compute; reflexivity.
Defined.

(** ** refreshToken *)

(** X10: refreshToken makes no lookup and at most one call to the token
    endpoint, and none at all without the full credentials, which it
    answers with the error 'missing google play api info'.  It stores a
    new access token only when it calls back without error, and the token
    stored is the access_token of the response it hands back; on every
    other path the module variables are left as they were. *)
Theorem refreshToken_stores_the_token_on_success_only :
  forall (e : environment) (w : world),
    let r := run e (refreshToken w report) [] in
    count is_lookup (fst r) = 0%nat /\
    (count is_refresh (fst r) <= 1)%nat /\
    refresh_contract w (snd r) /\
    (checkPurchaseState (vars w) = false ->
     exists result,
       r = ([], Called w (JErr "missing google play api info") result)).
Proof.
  intros e w r.
  assert (H : along (fun a b o => a = 0%nat /\ (b <= 1)%nat /\ refresh_contract w o)
                    0 0 (refreshToken w report)).
  { cbv beta iota zeta delta [refreshToken refreshGoogleTokens or_throw report].
    walk_with ltac:(first
      [ apply along_Done; split; [reflexivity | split; [lia |]];
        cbn [refresh_contract]; rewrite ?truthy_new_Error;
        repeat match goal with
               | H : truthy ?x = _ |- context [truthy ?x] => rewrite H
               end;
        cbn [truthy];
        first [ reflexivity
              | split; [reflexivity | eexists; reflexivity]
              | split; [reflexivity | eexists; split; [eassumption | reflexivity]] ] ]). }
  pose proof (run_along _ 0 0 _ H e [] eq_refl eq_refl) as (Ha & Hb & Hc).
  repeat split; try assumption.
  intros Hoff. unfold r, refreshToken. rewrite Hoff. eexists. reflexivity.
Qed.

(** A module without credentials. *)
Lemma refreshToken_stores_the_token_on_success_only_witness :
  let w := Scenarios.world_of Scenarios.live_only in
  exists result,
    run (Scenarios.healthy []) (refreshToken w report) []
      = ([], Called w (JErr "missing google play api info") result).
Proof.
  intros w.
  apply (proj2 (proj2 (proj2 (refreshToken_stores_the_token_on_success_only
                                (Scenarios.healthy []) w)))).
  vm_compute; reflexivity.
Defined.

(** ** readConfig *)

Lemma copied_lookup (configIn : gmap string string) k :
  isValidConfigKey k = true ->
  filter (fun kv : string * string => isValidConfigKey (fst kv) = true) configIn !! k
    = configIn !! k.
Proof.
  intros Hk. destruct (configIn !! k) as [v|] eqn:Hv.
  - apply map_lookup_filter_Some. split; [exact Hv | exact Hk].
  - apply map_lookup_filter_None. left. exact Hv.
Qed.

Lemma not_copied_lookup (configIn : gmap string string) k :
  isValidConfigKey k = false ->
  filter (fun kv : string * string => isValidConfigKey (fst kv) = true) configIn !! k
    = None.
Proof.
  intros Hk. apply map_lookup_filter_None. right. intros v _ H.
  change (isValidConfigKey k = true) in H. congruence.
Qed.

(** The configuration that [readConfig] builds answers for a credential key
    as the configuration object does. *)
Lemma legacy_keys_leave_credentials (configIn copied : gmap string string) k :
  copied !! k = configIn !! k ->
  k <> "googlePublicKeyStrSandbox" -> k <> "googlePublicKeyStrLive" ->
  (if present (configIn !! "publicKeyStrLive")
   then <["googlePublicKeyStrLive" := default "" (configIn !! "publicKeyStrLive")]>
          (if present (configIn !! "publicKeyStrSandbox")
           then <["googlePublicKeyStrSandbox" :=
                    default "" (configIn !! "publicKeyStrSandbox")]> copied
           else copied)
   else (if present (configIn !! "publicKeyStrSandbox")
         then <["googlePublicKeyStrSandbox" :=
                  default "" (configIn !! "publicKeyStrSandbox")]> copied
         else copied)) !! k
  = configIn !! k.
Proof.
  intros Hc Hs Hl.
  destruct (present (configIn !! "publicKeyStrLive")),
           (present (configIn !! "publicKeyStrSandbox"));
    rewrite ?lookup_insert_ne by congruence; exact Hc.
Qed.

(** X11: credentials are taken over all four together or not at all.
    After [readConfig], [checkPurchaseState] is true exactly when it was
    true before or the configuration object has a non-empty googleAccToken,
    googleRefToken, googleClientID and googleClientSecret; in that case the
    stored credentials are those four values, and otherwise the stored
    credentials are what they were: a partial set is ignored, and
    [readConfig] never switches [checkPurchaseState] off. *)
Theorem readConfig_takes_credentials_all_or_nothing :
  forall (configIn : gmap string string) (m : module_state),
    let m' := readConfig (Some configIn) m in
    checkPurchaseState m' = checkPurchaseState m || credentials_complete configIn /\
    googleTokenMap m'
      = if credentials_complete configIn then credentials_of configIn
        else googleTokenMap m.
Proof.
  intros configIn m m'. unfold m', readConfig.
  set (copied := filter (fun kv : string * string => isValidConfigKey (fst kv) = true)
                        configIn).
  destruct (bool_decide (copied = ∅)) eqn:Hempty; cbn [negb].
  - apply bool_decide_eq_true in Hempty.
    assert (Hnone : forall k, isValidConfigKey k = true -> configIn !! k = None).
    { intros k Hk. rewrite <- (copied_lookup configIn k Hk). fold copied.
      rewrite Hempty. apply lookup_empty. }
    unfold credentials_complete. rewrite (Hnone "googleAccToken" eq_refl).
    cbn [present andb checkPurchaseState googleTokenMap].
    rewrite orb_false_r. split; reflexivity.
  - cbn [checkPurchaseState googleTokenMap].
    rewrite !legacy_keys_leave_credentials
      by (first [apply copied_lookup; reflexivity | discriminate]).
    fold (credentials_complete configIn). fold (credentials_of configIn).
    destruct (credentials_complete configIn), (checkPurchaseState m); split; reflexivity.
Qed.

(** X12: the key names of older configurations, publicKeyStrLive and
    publicKeyStrSandbox, count only beside a key that starts with
    'google'.  In a configuration object without any such key they are
    dropped: the module is left without configuration, and [setup] then
    looks at the environment variables only.  Beside such a key, a
    non-empty legacy key string becomes the key string of its environment,
    also when the configuration object has a googlePublicKeyStr* string of
    its own for it. *)
Theorem readConfig_legacy_keys :
  forall (configIn : gmap string string) (m : module_state),
    ((forall k, isValidConfigKey k = true -> configIn !! k = None) ->
     readConfig (Some configIn) m
       = {| config := None; keyPathMap := keyPathMap m; publicKeyMap := publicKeyMap m;
            googleTokenMap := googleTokenMap m;
            checkPurchaseState := checkPurchaseState m |} /\
     chosen_source (readConfig (Some configIn) m) = EnvironmentVariables) /\
    (forall k t legacy,
        isValidConfigKey k = true -> is_Some (configIn !! k) ->
        configIn !! legacy_key t = Some legacy -> legacy <> "" ->
        config_get (readConfig (Some configIn) m) (config_key t) = Some legacy).
Proof.
  intros configIn m. split.
  - intros Hnone.
    assert (Hempty : filter (fun kv : string * string => isValidConfigKey (fst kv) = true)
                            configIn = ∅).
    { apply map_empty. intros k.
      destruct (isValidConfigKey k) eqn:Hk.
      - rewrite copied_lookup by exact Hk. apply Hnone, Hk.
      - apply not_copied_lookup, Hk. }
    assert (Hread : readConfig (Some configIn) m
                    = {| config := None; keyPathMap := keyPathMap m;
                         publicKeyMap := publicKeyMap m;
                         googleTokenMap := googleTokenMap m;
                         checkPurchaseState := checkPurchaseState m |}).
    { unfold readConfig. rewrite Hempty.
      rewrite (bool_decide_eq_true_2 _ eq_refl). reflexivity. }
    split; [exact Hread | rewrite Hread; reflexivity].
  - intros k t legacy Hk [v Hv] Hlegacy Hne.
    assert (Hnonempty : filter (fun kv : string * string => isValidConfigKey (fst kv) = true)
                               configIn <> ∅).
    { intros Hempty. pose proof (copied_lookup configIn k Hk) as Hc.
      rewrite Hempty, lookup_empty, Hv in Hc. discriminate. }
    assert (Hpresent : present (Some legacy) = true).
    { cbn. destruct (String.eqb_spec legacy ""); [contradiction | reflexivity]. }
    unfold readConfig. rewrite (bool_decide_eq_false_2 _ Hnonempty). cbn [negb].
    unfold config_get. cbn [config].
    destruct t; cbn [legacy_key config_key] in *; rewrite Hlegacy, Hpresent.
    + rewrite lookup_insert_eq. reflexivity.
    + destruct (present (configIn !! "publicKeyStrLive"));
        rewrite ?lookup_insert_ne by discriminate;
        rewrite lookup_insert_eq; reflexivity.
Qed.

(** The legacy name alone, and the legacy name beside the present one. *)
Lemma readConfig_legacy_keys_witness :
  config (readConfig (Some Scenarios.legacy_only) reset) = None /\
  chosen_source (readConfig (Some Scenarios.legacy_only) reset) = EnvironmentVariables /\
  config_get (readConfig (Some Scenarios.legacy_beside_present) reset)
             "googlePublicKeyStrLive"
    = Some "OLDKEY".
Proof.
  assert (Hnone : forall k, isValidConfigKey k = true ->
                            Scenarios.legacy_only !! k = None).
  { intros k Hk. destruct (decide (k = "publicKeyStrLive")) as [-> | Hne].
    - discriminate Hk.
    - unfold Scenarios.legacy_only. cbn [list_to_map foldr uncurry fst snd].
      rewrite lookup_insert_ne by congruence. apply lookup_empty. }
  destruct (proj1 (readConfig_legacy_keys Scenarios.legacy_only reset) Hnone)
    as [Hleft Hsource].
  split; [rewrite Hleft; reflexivity | split; [exact Hsource |]].
  apply (proj2 (readConfig_legacy_keys Scenarios.legacy_beside_present reset)
               "googlePublicKeyStrLive" live "OLDKEY").
  - reflexivity.
  - eexists. vm_compute; reflexivity.
  - vm_compute; reflexivity.
  - discriminate.
Defined.

(** ** setup keeps what it does not load *)

Lemma keys_only_added_refl m : keys_only_added m m.
Proof. repeat split; auto. Qed.

Lemma keys_only_added_trans m1 m2 m3 :
  keys_only_added m1 m2 -> keys_only_added m2 m3 -> keys_only_added m1 m3.
Proof.
  intros (A1 & A2 & A3 & A4 & A5) (B1 & B2 & B3 & B4 & B5).
  repeat split; try congruence. intros k Hk. apply B5, A5, Hk.
Qed.

Lemma set_publicKey_adds k v m : keys_only_added m (set_publicKey k v m).
Proof.
  repeat split. intros k' Hk'. cbn [publicKeyMap set_publicKey].
  destruct (decide (k = k')) as [-> | Hne].
  - rewrite lookup_insert_eq. eauto.
  - rewrite lookup_insert_ne by exact Hne. exact Hk'.
Qed.

(** Reading the key files one after the other only adds keys, whatever
    the key paths are. *)
Lemma read_key_files_adds_keys (h : host) keys m :
  keys_only_added m
    (Async.eachSeries keys
       (fun key m' next =>
          let pkeyPath := default "" (keyPath_get key (keyPathMap m')) in
          match files h !! pkeyPath with
          | None => next m' JUndefined
          | Some fileData =>
              next (set_publicKey key (strip_trailing is_whitespace fileData) m')
                   JUndefined
          end)
       (fun m' _ => m') m).
Proof.
  revert m. induction keys as [|key keys IH]; intros m; cbn [Async.eachSeries].
  - apply keys_only_added_refl.
  - cbv zeta. destruct (files h !! _); cbn [truthy].
    + eapply keys_only_added_trans; [apply set_publicKey_adds | apply IH].
    + apply IH.
Qed.

(** X13: whatever the module variables, the environment and the files,
    [setup] changes nothing but [publicKeyMap], and removes no key from it:
    a key that was loaded stays loaded when its source has gone. *)
Theorem setup_only_adds_keys :
  forall (h : host) (m : module_state),
    keys_only_added m (setup h m (fun m' => m')).
Proof.
  intros h m. unfold setup.
  destruct (present (config_get m "googlePublicKeyStrSandbox")
            || present (config_get m "googlePublicKeyStrLive")).
  - destruct (present (config_get m "googlePublicKeyStrSandbox"));
      rewrite ?config_get_set_publicKey;
      destruct (present (config_get m "googlePublicKeyStrLive"));
      repeat first [ apply keys_only_added_refl
                   | eapply keys_only_added_trans;
                     [| apply set_publicKey_adds] ].
  - destruct (negb (bool_decide (is_Some (config m)))
              || negb (present (config_get m "googlePublicKeyPath"))).
    + destruct (present (process_env h !! ENV_PUBLICKEY.SANDBOX));
        destruct (present (process_env h !! ENV_PUBLICKEY.LIVE));
        repeat first [ apply keys_only_added_refl
                     | eapply keys_only_added_trans;
                       [| apply set_publicKey_adds] ].
    + apply read_key_files_adds_keys.
Qed.

(** ** The envelope around key material *)

Import Pem.

Lemma append_empty_r s : (s ++ "")%string = s.
Proof.
  induction s as [|c s IH]; [reflexivity |].
  change (String c (s ++ "") = String c s). rewrite IH. reflexivity.
Qed.

Lemma append_associative s t u : ((s ++ t) ++ u)%string = (s ++ (t ++ u))%string.
Proof.
  induction s as [|c s IH]; [reflexivity |].
  change (String c ((s ++ t) ++ u) = String c (s ++ (t ++ u))). rewrite IH. reflexivity.
Qed.

Lemma length_append s t :
  String.length (s ++ t)%string = (String.length s + String.length t)%nat.
Proof.
  induction s as [|c s IH]; [reflexivity |].
  change (S (String.length (s ++ t)) = S (String.length s + String.length t)).
  rewrite IH. reflexivity.
Qed.

Lemma join_empty_cons x l : join "" (x :: l) = (x ++ join "" l)%string.
Proof. destruct l; simpl; [rewrite append_empty_r; reflexivity | reflexivity]. Qed.

Lemma without_line_terminators_append s t :
  without_line_terminators (s ++ t)
    = (without_line_terminators s ++ without_line_terminators t)%string.
Proof.
  induction s as [|c s IH]; [reflexivity |].
  change (without_line_terminators (String c (s ++ t))
          = (without_line_terminators (String c s) ++ without_line_terminators t)%string).
  cbn [without_line_terminators].
  destruct (is_line_terminator c); rewrite IH; reflexivity.
Qed.

(** The chunks of a string: together they are the string without its line
    terminators, each one is a line, and the last one is empty. *)
Lemma match_chunks_lines len s :
  (1 <= len)%nat ->
  forall cur n,
    n = String.length cur -> line_of len cur ->
    let chunks := match_chunks len s cur n in
    join "" chunks = (cur ++ without_line_terminators s)%string /\
    Forall (line_of len) chunks /\
    last chunks = Some "".
Proof.
  intros Hlen. assert (Hempty : line_of len "") by (split; [simpl; lia | reflexivity]).
  induction s as [|c s IH]; intros cur n Hn Hcur; cbn [match_chunks without_line_terminators].
  - destruct (Nat.eqb_spec n 0) as [H0 | H0].
    + destruct cur; [| simpl in Hn; lia].
      split; [reflexivity | split; [| reflexivity]].
      apply List.Forall_cons; [exact Hempty | apply List.Forall_nil].
    + split; [reflexivity | split; [| reflexivity]].
      apply List.Forall_cons; [exact Hcur |].
      apply List.Forall_cons; [exact Hempty | apply List.Forall_nil].
  - destruct (is_line_terminator c) eqn:Hc.
    + destruct (IH "" 0%nat eq_refl Hempty) as (Hjoin & Hall & Hlast).
      change ("" ++ without_line_terminators s)%string
        with (without_line_terminators s) in Hjoin.
      assert (Hrest : join "" ("" :: match_chunks len s "" 0) = without_line_terminators s
                      /\ Forall (line_of len) ("" :: match_chunks len s "" 0)
                      /\ last ("" :: match_chunks len s "" 0) = Some "").
      { rewrite join_empty_cons, Hjoin.
        split; [reflexivity | split; [constructor; assumption |]].
        rewrite last_cons, Hlast. reflexivity. }
      destruct Hrest as (Hj & Ha & Hl).
      destruct (Nat.eqb_spec n 0) as [H0 | H0]; cbn [app].
      * destruct cur; [| simpl in Hn; lia].
        split; [exact Hj | split; [exact Ha | exact Hl]].
      * rewrite join_empty_cons, Hj.
        split; [reflexivity | split; [constructor; assumption |]].
        rewrite last_cons, Hl. reflexivity.
    + destruct (Nat.ltb_spec n len) as [Hlt | Hge].
      * destruct (IH (cur ++ String c "")%string (S n)) as (Hjoin & Hall & Hlast).
        -- rewrite length_append, <- Hn. simpl. lia.
        -- destruct Hcur as [Hl Hw]. split.
           ++ rewrite length_append, <- Hn. simpl. lia.
           ++ rewrite without_line_terminators_append, Hw.
              cbn [without_line_terminators]. rewrite Hc. reflexivity.
        -- rewrite Hjoin, append_associative.
           split; [reflexivity | split; assumption].
      * destruct (IH (String c "") 1%nat eq_refl) as (Hjoin & Hall & Hlast).
        -- split; [simpl; lia | cbn [without_line_terminators]; rewrite Hc; reflexivity].
        -- rewrite join_empty_cons, Hjoin.
           split; [reflexivity | split; [constructor; assumption |]].
           rewrite last_cons, Hlast. reflexivity.
Qed.

(** X14: [getPublicKey] gives nothing for a key that is missing or empty.
    For any other key it gives the header line, the key cut into lines,
    and the footer line, each followed by a line feed: the lines have at
    most 64 characters, put together they are the key with its line
    terminators left out, and the last line is empty, so that the footer
    starts a line of its own. *)
Theorem getPublicKey_wraps_the_key_in_lines :
  forall (publicKey : option string),
    (present publicKey = false -> getPublicKey publicKey = None) /\
    (forall key,
        publicKey = Some key -> key <> "" ->
        exists lines,
          getPublicKey publicKey
            = Some (header ++ nl ++ join nl lines ++ footer ++ nl)%string /\
          join "" lines = without_line_terminators key /\
          Forall (line_of 64) lines /\
          last lines = Some "").
Proof.
  intros publicKey. split; [apply getPublicKey_absent |].
  intros key -> Hne. cbn [getPublicKey].
  destruct (String.eqb_spec key ""); [contradiction |].
  destruct (match_chunks_lines 64 key ltac:(lia) "" 0%nat eq_refl)
    as (Hjoin & Hall & Hlast).
  { split; [simpl; lia | reflexivity]. }
  exists (match_chunks 64 key "" 0). split; [reflexivity |].
  repeat split; auto.
Qed.

(** No key, and a key of one short line. *)
Lemma getPublicKey_wraps_the_key_in_lines_witness :
  getPublicKey None = None /\
  exists lines,
    getPublicKey (Some "LIVEKEY")
      = Some (header ++ nl ++ join nl lines ++ footer ++ nl)%string /\
    join "" lines = without_line_terminators "LIVEKEY" /\
    Forall (line_of 64) lines /\
    last lines = Some "".
Proof.
  split.
  - apply (proj1 (getPublicKey_wraps_the_key_in_lines None)). reflexivity.
  - apply (proj2 (getPublicKey_wraps_the_key_in_lines (Some "LIVEKEY")) "LIVEKEY").
    + reflexivity.
    + discriminate.
Defined.

(** ** What the trimming of key material removes *)

Lemma string_rev_onto_acc s acc :
  string_rev_onto s acc = (string_rev_onto s "" ++ acc)%string.
Proof.
  revert acc. induction s as [|c s IH]; intros acc; cbn [string_rev_onto]; [reflexivity |].
  rewrite (IH (String c acc)), (IH (String c "")), append_associative. reflexivity.
Qed.

(** Induction on a string from its right end. *)
Lemma string_snoc_ind (P : string -> Prop) :
  P "" -> (forall s c, P s -> P (s ++ String c "")%string) -> forall s, P s.
Proof.
  intros Hnil Hsnoc s.
  assert (Hrev : forall r, P (string_rev_onto r "")).
  { induction r as [|c r IH]; cbn [string_rev_onto]; [exact Hnil |].
    rewrite string_rev_onto_acc. apply Hsnoc, IH. }
  pose proof (Hrev (string_rev_onto s "")) as H.
  rewrite string_rev_onto_twice in H. cbn [string_rev_onto] in H.
  rewrite append_empty_r in H. exact H.
Qed.

Lemma all_chars_snoc p s c :
  all_chars p (s ++ String c "") = all_chars p s && p c.
Proof.
  induction s as [|c0 s IH].
  - change (p c && true = true && p c). rewrite andb_true_r. reflexivity.
  - change (p c0 && all_chars p (s ++ String c "") = p c0 && all_chars p s && p c).
    rewrite IH, andb_assoc. reflexivity.
Qed.

Lemma last_char_of_snoc s c : last_char (s ++ String c "") = Some c.
Proof.
  induction s as [|c0 s IH]; [reflexivity |].
  change (last_char (String c0 (s ++ String c "")) = Some c).
  cbn [last_char]. destruct (s ++ String c "")%string eqn:E; [| exact IH].
  destruct s; discriminate E.
Qed.

(** X15: what [replace(/X+$/, '')] does to key material, for the class
    [\s] applied to key files and for the letter s applied to environment
    variables alike: the key stored is the source from its start, what is
    cut off at the end consists of characters of the class only, the key
    stored does not end in a character of the class, and trimming it again
    changes nothing. *)
Theorem trimming_removes_a_trailing_run_only :
  forall (p : ascii -> bool) (source : string),
    exists removed,
      source = (strip_trailing p source ++ removed)%string /\
      all_chars p removed = true /\
      (forall c, last_char (strip_trailing p source) = Some c -> p c = false) /\
      strip_trailing p (strip_trailing p source) = strip_trailing p source.
Proof.
  intros p. apply (string_snoc_ind (fun source => exists removed,
      source = (strip_trailing p source ++ removed)%string /\
      all_chars p removed = true /\
      (forall c, last_char (strip_trailing p source) = Some c -> p c = false) /\
      strip_trailing p (strip_trailing p source) = strip_trailing p source)).
  - exists "". repeat split. intros c H. discriminate H.
  - intros s c (removed & Hs & Hall & Hlast & Hagain).
    rewrite strip_trailing_snoc. destruct (p c) eqn:Hc.
    + exists (removed ++ String c "")%string.
      split; [| split; [| split; assumption]].
      * rewrite <- append_associative, <- Hs. reflexivity.
      * rewrite all_chars_snoc, Hall, Hc. reflexivity.
    + exists "". split; [| split; [reflexivity | split]].
      * rewrite append_empty_r. reflexivity.
      * intros c'. rewrite last_char_of_snoc. intros [= <-]. exact Hc.
      * rewrite strip_trailing_snoc, Hc. reflexivity.
Qed.

(** ** getPurchaseData on what a reconciliation hands back *)

Lemma truthy_has_properties v k : truthy v = true -> get_prop v k = Some (field v k).
Proof. unfold field. destruct v; try discriminate; reflexivity. Qed.

(** The item made of a record that kept the identifying properties of a
    purchase identifies that purchase. *)
Lemma getPurchaseData_of_kept (m : module_state) (data result : jsval) :
  truthy data = true -> truthy result = truthy data ->
  (forall k, k <> "service" -> k <> "autoRenewing" -> k <> "expirationTime" ->
             get_prop result k = get_prop data k) ->
  exists info,
    getPurchaseData m result = Some (JArr [JObj info]) /\
    identifies data info /\
    (checkPurchaseState m = false -> assoc_get "expirationDate" info = None).
Proof.
  intros Tdata Tresult Hkeep. rewrite Tdata in Tresult.
  assert (Hfield : forall k, k <> "service" -> k <> "autoRenewing" ->
                             k <> "expirationTime" ->
                             get_prop result k = Some (field data k)).
  { intros k H1 H2 H3. rewrite (Hkeep k H1 H2 H3). apply truthy_has_properties, Tdata. }
  unfold getPurchaseData. rewrite Tresult. cbn [negb].
  rewrite (Hfield "purchaseToken"), (Hfield "orderId"), (Hfield "productId"),
    (Hfield "purchaseTime") by (intros Heq; discriminate Heq).
  cbn [mbind option_bind].
  destruct (checkPurchaseState m).
  - rewrite (truthy_has_properties result "expirationTime" Tresult).
    cbn [mbind option_bind].
    destruct (truthy (field result "expirationTime"));
      cbn [set_prop mbind option_bind];
      eexists; (split; [reflexivity | split; [repeat split | discriminate]]).
  - cbn [mbind option_bind].
    eexists. split; [reflexivity | split; [repeat split | reflexivity]].
Qed.

(** X16: the item that getPurchaseData makes of the payload handed back by
    a successful reconciliation names the verified purchase: its
    transactionId, orderId, productId and purchaseDate are the
    purchaseToken, orderId, productId and purchaseTime of the verified
    payload, whatever the endpoints answered, and its quantity is 1; and
    without credentials it has no expirationDate, even when the receipt
    itself carries an expirationTime. *)
Theorem reconciled_purchase_is_reported_with_its_identity :
  forall (e : environment) (data options : jsval) (w : world) (past : list event),
    truthy data = true ->
    match snd (run e (checkPurchaseStatus data options w report) past) with
    | Called w' error result =>
        truthy error = false ->
        exists info,
          getPurchaseData (vars w') result = Some (JArr [JObj info]) /\
          identifies data info /\
          (checkPurchaseState (vars w) = false -> assoc_get "expirationDate" info = None)
    | _ => True
    end.
Proof.
  intros e data options w past Tdata.
  destruct (checkPurchaseState (vars w)) eqn:Hon.
  - destruct (run_ensures_after _ _ (checkPurchaseStatus_result_contract data options w)
                                e past) as (tr & _ & H).
    destruct (snd (run e (checkPurchaseStatus data options w report) past))
      as [w' error result | |]; try exact I.
    intros Terr. cbn [result_contract] in H. rewrite Terr in H.
    destruct H as (_ & Tresult & Hkeep & _).
    destruct (getPurchaseData_of_kept (vars w') data result Tdata Tresult Hkeep)
      as (info & Hinfo & Hid & _).
    exists info. split; [exact Hinfo | split; [exact Hid | discriminate]].
  - unfold checkPurchaseStatus.
    destruct (set_prop data "service" SERVICES_GOOGLE) as [data1|] eqn:Hset;
      cbn [or_throw]; [| exact I].
    rewrite Hon. cbn [negb report run snd]. intros _.
    destruct (getPurchaseData_of_kept (vars w) data data1) as (info & Hinfo & Hid & Hno).
    + exact Tdata.
    + eapply set_prop_keeps_truthiness; eassumption.
    + intros k Hk _ _. eapply get_set_prop_other; eassumption.
    + exists info. split; [exact Hinfo | split; [exact Hid | intros _; apply Hno, Hon]].
Qed.

(** A subscription reconciled without credentials: the receipt's own
    expirationTime does not make it into the item. *)
Lemma reconciled_purchase_is_reported_with_its_identity_witness :
  let data := JObj Scenarios.subscription_payload in
  let w := Scenarios.world_of Scenarios.live_only in
  exists w' result info,
    snd (run (Scenarios.subscribed [])
             (checkPurchaseStatus data Scenarios.for_subscription w report) [])
      = Called w' JNull result /\
    getPurchaseData (vars w') result = Some (JArr [JObj info]) /\
    identifies data info /\
    assoc_get "expirationDate" info = None.
Proof.
  intros data w.
  pose proof (reconciled_purchase_is_reported_with_its_identity
                (Scenarios.subscribed []) data Scenarios.for_subscription w []
                eq_refl) as Hitem.
  destruct (snd (run (Scenarios.subscribed [])
                     (checkPurchaseStatus data Scenarios.for_subscription w report) []))
    as [w' error result | |] eqn:Hrun; try (vm_compute in Hrun; discriminate Hrun).
  assert (Herror : error = JNull) by (vm_compute in Hrun; congruence).
  subst error.
  assert (Hoff : checkPurchaseState (vars w) = false) by (vm_compute; reflexivity).
  destruct (Hitem eq_refl) as (info & Hmade & Hnames & Hnone).
  exists w', result, info. repeat split; try assumption; try apply Hnames.
  exact (Hnone Hoff).
Defined.

(** ** A refresh that is refused *)

Lemma truthy_is_not_nullish v k : truthy v = true -> get_prop v k <> None.
Proof. destruct v; discriminate. Qed.

Lemma field_of_get_prop v k x : get_prop v k = Some x -> field v k = x.
Proof. unfold field. intros ->. reflexivity. Qed.

Lemma nullish_has_no_properties v k :
  get_prop v k = None -> v = JNull \/ v = JUndefined.
Proof. destruct v; try discriminate; auto. Qed.

(** X17: when the token endpoint refuses the refresh, by a transport error
    or by a response that carries an error which is not null, the
    reconciliation ends there: the callback gets the transport error, or an
    Error made of the error's nested message (of the error itself when it
    has none), together with a FAILURE envelope, the module variables are
    as they were, and no second lookup is made. *)
Theorem refused_refresh_ends_the_reconciliation :
  forall (e : environment) (data options : jsval) (w : world) (past : list event),
    exists tr,
      fst (run e (checkPurchaseStatus data options w report) past) = (past ++ tr)%list /\
      refused_refresh_is_reported w tr
        (snd (run e (checkPurchaseStatus data options w report) past)).
Proof.
  intros e data options w past.
  apply (run_ensures_after (refused_refresh_is_reported w)).
  destruct (set_prop data "service" SERVICES_GOOGLE) as [data1|] eqn:Hset.
  - destruct (checkPurchaseState (vars w)) eqn:Hon.
    + rewrite (checkPurchaseStatus_steps _ _ _ _ _ Hset Hon).
      generalize (url_of data options) (is_subscription options). intros url isSubscription.
      cbv beta iota zeta delta
        [Async.series tasks getSubInfo validate recheck done
         getPurchaseInfo refreshGoogleTokens copy_subscription or_throw report
         with_state with_data with_world is_state state cw Google.data].
      ewalk_with ltac:(first
        [ apply ensures_Done; cbn [refused_refresh_is_reported]; cbv zeta;
          repeat match goal with
                 | H : get_prop ?v ?k = Some ?x |- context [field ?v ?k] =>
                     rewrite (field_of_get_prop v k x H)
                 end;
          first
            [ exact I
            | reflexivity
            | exfalso; eapply truthy_is_not_nullish; eassumption
            | intros Hin; congruence
            | intros _ Hnull Hundef;
              first
                [ reflexivity
                | exfalso;
                  match goal with
                  | H : get_prop ?v _ = None |- _ =>
                      destruct (nullish_has_no_properties _ _ H); contradiction
                  end ]
            | infeasible ] ]).
    + unfold checkPurchaseStatus. rewrite Hset. cbn [or_throw]. rewrite Hon.
      apply ensures_Done. exact I.
  - unfold checkPurchaseStatus. rewrite Hset. apply ensures_Done. exact I.
Qed.

(** The token endpoint answers the refresh with the error invalid_grant. *)
Lemma refused_refresh_ends_the_reconciliation_witness :
  let w := Scenarios.world_of Scenarios.live_and_credentials in
  snd (run (Scenarios.refresh_answered [] (JObj [("error", JStr "invalid_grant")]))
           (checkPurchaseStatus Scenarios.verified_payload JUndefined w report) [])
    = Called w (new_Error (JStr "invalid_grant"))
               (failure_envelope (JStr "invalid_grant")).
Proof.
  intros w.
  destruct (refused_refresh_ends_the_reconciliation
              (Scenarios.refresh_answered [] (JObj [("error", JStr "invalid_grant")]))
              Scenarios.verified_payload JUndefined w [])
    as (tr & Htrace & Hreported).
  vm_compute in Htrace. subst tr.
  cbn [refused_refresh_is_reported] in Hreported.
  apply Hreported.
  - reflexivity.
  - discriminate.
  - discriminate.
Defined.

(** ** The canonical string keeps the JSON text *)

Lemma escape_slashes_starts_escaped s :
  match escape_slashes s with
  | String c _ => Ascii.eqb c "/"%char = false
  | EmptyString => True
  end.
Proof.
  destruct s as [|c r]; [exact I |].
  change (escape_slashes (String c r))
    with (if Ascii.eqb c "/"%char
          then String "\"%char (String "/"%char (escape_slashes r))
          else String c (escape_slashes r)).
  destruct (Ascii.eqb c "/"%char) eqn:E; [reflexivity | exact E].
Qed.

Lemma unescape_escape_slashes s :
  Canonical.unescape_slashes (escape_slashes s) = s.
Proof.
  induction s as [|c r IH]; [reflexivity |].
  change (escape_slashes (String c r))
    with (if Ascii.eqb c "/"%char
          then String "\"%char (String "/"%char (escape_slashes r))
          else String c (escape_slashes r)).
  destruct (Ascii.eqb c "/"%char) eqn:E.
  - apply Ascii.eqb_eq in E. subst c.
    change (String "/"%char (Canonical.unescape_slashes (escape_slashes r))
            = String "/"%char r).
    rewrite IH. reflexivity.
  - pose proof (escape_slashes_starts_escaped r) as Hstart.
    destruct (escape_slashes r) as [|c' r'] eqn:Er.
    + change (Canonical.unescape_slashes "") with EmptyString in IH.
      subst r. reflexivity.
    + change (Canonical.unescape_slashes (String c (String c' r')))
        with (if Ascii.eqb c "\"%char && Ascii.eqb c' "/"%char
              then String "/"%char (Canonical.unescape_slashes r')
              else String c (Canonical.unescape_slashes (String c' r'))).
      rewrite Hstart, andb_false_r, IH. reflexivity.
Qed.

Lemma escape_slashes_escapes_all s :
  forall escaped, Canonical.slashes_escaped escaped (escape_slashes s) = true.
Proof.
  induction s as [|c r IH]; intros escaped; [reflexivity |].
  change (escape_slashes (String c r))
    with (if Ascii.eqb c "/"%char
          then String "\"%char (String "/"%char (escape_slashes r))
          else String c (escape_slashes r)).
  destruct (Ascii.eqb c "/"%char) eqn:E.
  - change (Canonical.slashes_escaped false (escape_slashes r) = true).
    apply IH.
  - change ((if Ascii.eqb c "/"%char then escaped else true)
            && Canonical.slashes_escaped (Ascii.eqb c "\"%char) (escape_slashes r)
            = true).
    rewrite E, IH. reflexivity.
Qed.

(** X18: the canonical string of object-typed receipt data loses nothing of
    the JSON text it was made from: no slash of it is left without a
    backslash in front, and reading each backslash-slash pair back as a
    slash gives the JSON text again. *)
Theorem canonical_string_keeps_the_json_text :
  forall (d : jsval) (text : string),
    canonical_data d = Some text ->
    Canonical.slashes_escaped false text = true /\
    JSON_stringify d = Some (Canonical.unescape_slashes text).
Proof.
  intros d text. unfold canonical_data.
  destruct (JSON_stringify d) as [json|]; [| discriminate].
  intros Htext. injection Htext as <-. split.
  - apply escape_slashes_escapes_all.
  - rewrite unescape_escape_slashes. reflexivity.
Qed.

(** A developerPayload with two slashes. *)
Lemma canonical_string_keeps_the_json_text_witness :
  slashes_escaped false Scenarios.slashes_text = true /\
  JSON_stringify Scenarios.payload_with_slashes
    = Some (unescape_slashes Scenarios.slashes_text) /\
  JSON_stringify Scenarios.payload_with_slashes <> Some Scenarios.slashes_text.
Proof.
  destruct (canonical_string_keeps_the_json_text
              Scenarios.payload_with_slashes Scenarios.slashes_text)
    as [Hescaped Hread].
  - vm_compute; reflexivity.
  - split; [exact Hescaped | split; [exact Hread |]].
    vm_compute. discriminate.
Defined.
